(** * TuRifa-Online: the seat ledger of [app.py]

    A shallow embedding of the three endpoints of [app.py]
    ([get_boletos], [reservar_boleto], [comprar_boleto]) and of the
    expiry sweep [liberar_reservas_expiradas] they share, followed by the
    properties of the reservation state machine.

    Modelling conventions.
    - The table [Boleto] is a list of rows in storage order; a row keeps
      the four columns of the model class.
    - Every [int(time.time())] of the source is a clock reading handed to
      the function as an argument, one argument per reading.
    - The database session is a state monad over the table. A commit makes
      the pending row changes the new table; the [except] branches (a
      storage failure answered with 500) are outside the model. *)

From Stdlib Require Import ZArith.
From stdpp Require Import base tactics option list strings pretty.

(** ** 1. Configuration *)

Definition RESERVA_DURACION_SEGUNDOS : Z := 30.

(** ** 2. The table [Boleto] *)

(** The column [estado] holds one of the three strings the program ever
    writes: 'DISPONIBLE', 'RESERVADO', 'VENDIDO'. *)
Inductive Estado : Type :=
  | DISPONIBLE
  | RESERVADO
  | VENDIDO.

#[global] Instance Estado_eq_dec : EqDecision Estado.
Proof. solve_decision. Defined.

Definition estado_str (e : Estado) : string :=
  match e with
  | DISPONIBLE => "DISPONIBLE"
  | RESERVADO => "RESERVADO"
  | VENDIDO => "VENDIDO"
  end.

Record Boleto : Type := mkBoleto {
  id : Z;
  asiento : string;
  estado : Estado;
  tiempo_limite : Z
}.

#[global] Instance Boleto_eq_dec : EqDecision Boleto.
Proof. solve_decision. Defined.

Abbreviation Tabla := (list Boleto).

(** [Boleto.to_dict]: the deadline is not part of the snapshot. *)
Record BoletoDict : Type := mkBoletoDict {
  dict_id : Z;
  dict_asiento : string;
  dict_estado : Estado
}.

Definition to_dict (self : Boleto) : BoletoDict :=
  {| dict_id := id self;
     dict_asiento := asiento self;
     dict_estado := estado self |}.

(** ** 3. The database session *)

Definition Sesion (A : Type) : Type := Tabla → A * Tabla.

#[global] Instance Sesion_ret : MRet Sesion := λ A x t, (x, t).
#[global] Instance Sesion_bind : MBind Sesion :=
  λ A B f m t, let '(x, t') := m t in f x t'.

(** [Boleto.query.all()] *)
Definition query_all : Sesion (list Boleto) := λ t, (t, t).

(** [Boleto.query.filter_by(asiento=asiento_nombre).first()]: the first
    row with that name, with its position in the table. *)
Definition query_filter_by_asiento (asiento_nombre : string)
  : Sesion (option (nat * Boleto)) :=
  λ t, (list_find (λ b, asiento b = asiento_nombre) t, t).

(** Assignment to the attributes of the row at position [i], committed. *)
Definition commit_boleto (i : nat) (b : Boleto) : Sesion unit :=
  λ t, (tt, <[i:=b]> t).

(** Initialisation (inside [app.app_context()] at start-up): when the
    table is empty, insert 200 rows A1 .. A200, all 'DISPONIBLE', with the
    column default 0 for [tiempo_limite] and the keys 1 .. 200 of an
    auto-increment primary key on an empty table. *)
Definition inicializar : Sesion unit :=
  λ t, if decide (length t = 0)
       then (tt, t ++ ((λ i : nat,
                          {| id := Z.of_nat i;
                             asiento := "A" +:+ pretty i;
                             estado := DISPONIBLE;
                             tiempo_limite := 0 |}) <$> seq 1 200))
       else (tt, t).

(** The table of a first start. *)
Definition inventario_inicial : Tabla := (inicializar []).2.

(** ** 4. Release of expired reservations *)

(** The filter of the query: [estado == 'RESERVADO'] and
    [tiempo_limite < ahora]. *)
Definition expirado (ahora : Z) (b : Boleto) : bool :=
  bool_decide (estado b = RESERVADO) && bool_decide (tiempo_limite b < ahora)%Z.

(** The body of the loop: the two assignments to an expired row. *)
Definition liberar (boleto : Boleto) : Boleto :=
  {| id := id boleto;
     asiento := asiento boleto;
     estado := DISPONIBLE;
     tiempo_limite := 0 |}.

(** The rows the query selects, each with its position in the table. *)
Definition boletos_expirados (ahora : Z) (t : Tabla) : list (nat * Boleto) :=
  filter (λ ib, expirado ahora ib.2 = true) (imap pair t).

(** [liberar_reservas_expiradas()], with its clock reading [ahora]: the
    loop over the selected rows writes each released row back in place.
    The commit, made only when some row was selected, is the table after
    the loop. *)
Definition liberar_reservas_expiradas (ahora : Z) : Sesion unit :=
  λ t, (tt, foldl (λ t' ib, <[ib.1 := liberar ib.2]> t') t
                  (boletos_expirados ahora t)).

(** ** 5. Endpoints *)

Record Respuesta : Type := mkRespuesta {
  codigo : Z;
  message : string;
  estado_json : option Estado
}.

(** [GET /api/boletos] *)
Definition get_boletos (ahora : Z) : Sesion (list BoletoDict) :=
  liberar_reservas_expiradas ahora ;;
  boletos ← query_all ;
  mret (to_dict <$> boletos).

(** [POST /api/reservar/<asiento_nombre>]. [ahora] is the clock reading of
    the sweep, [ahora'] the one that fixes the deadline. *)
Definition reservar_boleto (ahora ahora' : Z) (asiento_nombre : string)
  : Sesion Respuesta :=
  liberar_reservas_expiradas ahora ;;
  boleto ← query_filter_by_asiento asiento_nombre ;
  match boleto with
  | None =>
      mret {| codigo := 404;
              message := "Asiento no encontrado.";
              estado_json := None |}
  | Some (i, boleto) =>
      if decide (estado boleto = DISPONIBLE) then
        let tiempo_limite := (ahora' + RESERVA_DURACION_SEGUNDOS)%Z in
        commit_boleto i {| id := id boleto;
                           asiento := asiento boleto;
                           estado := RESERVADO;
                           tiempo_limite := tiempo_limite |} ;;
        mret {| codigo := 200;
                message := "Asiento " +:+ asiento_nombre
                           +:+ " reservado exitosamente. Tienes "
                           +:+ pretty RESERVA_DURACION_SEGUNDOS
                           +:+ " segundos para comprarlo.";
                estado_json := Some RESERVADO |}
      else
        mret {| codigo := 409;
                message := "Asiento " +:+ asiento_nombre +:+ " ya está "
                           +:+ estado_str (estado boleto) +:+ ".";
                estado_json := Some (estado boleto) |}
  end.

(** [POST /api/comprar/<asiento_nombre>]. The function reads no clock and
    calls no sweep. *)
Definition comprar_boleto (asiento_nombre : string) : Sesion Respuesta :=
  boleto ← query_filter_by_asiento asiento_nombre ;
  match boleto with
  | None =>
      mret {| codigo := 404;
              message := "Asiento no encontrado.";
              estado_json := None |}
  | Some (i, boleto) =>
      if decide (estado boleto = RESERVADO) then
        commit_boleto i {| id := id boleto;
                           asiento := asiento boleto;
                           estado := VENDIDO;
                           tiempo_limite := 0 |} ;;
        mret {| codigo := 200;
                message := "¡Compra exitosa! Asiento " +:+ asiento_nombre
                           +:+ " VENDIDO permanentemente.";
                estado_json := Some VENDIDO |}
      else
        mret {| codigo := 409;
                message := "El asiento " +:+ asiento_nombre
                           +:+ " no está reservado o ya fue vendido.";
                estado_json := Some (estado boleto) |}
  end.

(** ** 6. Vocabulary of the properties *)

(** The row a name designates: the answer of
    [query_filter_by_asiento], without the session. *)
Abbreviation buscar nombre t :=
  (list_find (λ b : Boleto, asiento b = nombre) t).

(** What the sweep at [ahora] does to one row. *)
Definition barrer (ahora : Z) (b : Boleto) : Boleto :=
  if expirado ahora b then liberar b else b.

(** The row [reservar_boleto] writes, and the row [comprar_boleto]
    writes. *)
Definition reservado (b : Boleto) (limite : Z) : Boleto :=
  {| id := id b; asiento := asiento b;
     estado := RESERVADO; tiempo_limite := limite |}.

Definition vendido (b : Boleto) : Boleto :=
  {| id := id b; asiento := asiento b;
     estado := VENDIDO; tiempo_limite := 0 |}.

(** A row with its deadline forgotten. *)
Definition sin_limite (b : Boleto) : Boleto :=
  {| id := id b; asiento := asiento b;
     estado := estado b; tiempo_limite := 0 |}.

(** The data-model invariant on one row. *)
Definition coherente (b : Boleto) : Prop :=
  (estado b = RESERVADO ↔ (0 < tiempo_limite b)%Z) ∧
  (estado b ≠ RESERVADO → tiempo_limite b = 0%Z).

(** The operations on the table, with their clock readings. *)
Inductive Operacion : Type :=
  | OpListar (ahora : Z)
  | OpReservar (ahora ahora' : Z) (asiento_nombre : string)
  | OpComprar (asiento_nombre : string)
  | OpLiberar (ahora : Z).

Definition ejecutar (op : Operacion) (t : Tabla) : Tabla :=
  match op with
  | OpListar ahora => (get_boletos ahora t).2
  | OpReservar ahora ahora' nombre => (reservar_boleto ahora ahora' nombre t).2
  | OpComprar nombre => (comprar_boleto nombre t).2
  | OpLiberar ahora => (liberar_reservas_expiradas ahora t).2
  end.

Definition ejecutar_todas (ops : list Operacion) (t : Tabla) : Tabla :=
  foldl (λ t' op, ejecutar op t') t ops.

(** Unix time: the reading that fixes a deadline is not negative. *)
Definition reloj_unix (op : Operacion) : Prop :=
  match op with
  | OpReservar _ ahora' _ => (0 ≤ ahora')%Z
  | _ => True
  end.

(** Successive calls of [reservar_boleto] on one name, one pair of clock
    readings per call. *)
Fixpoint reservar_sucesivo (relojes : list (Z * Z)) (asiento_nombre : string)
  : Sesion (list Respuesta) :=
  match relojes with
  | [] => mret []
  | c :: relojes' =>
      r ← reservar_boleto c.1 c.2 asiento_nombre ;
      rs ← reservar_sucesivo relojes' asiento_nombre ;
      mret (r :: rs)
  end.

(** The purchase as the overview of the specification words it: "Ledger
    first sweeps expired reservations for the affected seat(s)", then
    applies the transition. The source has no such function; it is here
    to be compared with [comprar_boleto]. *)
Definition comprar_boleto_con_barrido (ahora : Z) (asiento_nombre : string)
  : Sesion Respuesta :=
  liberar_reservas_expiradas ahora ;;
  comprar_boleto asiento_nombre.

(** The status changes of one row that one operation may make: a sweep
    (alone, or at the head of a listing or of a reservation) releases, a
    reservation reserves, a purchase sells; nothing leaves VENDIDO and
    nothing goes from DISPONIBLE to VENDIDO. *)
Definition transicion (op : Operacion) (e e' : Estado) : bool :=
  match e, e' with
  | DISPONIBLE, DISPONIBLE | RESERVADO, RESERVADO | VENDIDO, VENDIDO => true
  | DISPONIBLE, RESERVADO =>
      match op with OpReservar _ _ _ => true | _ => false end
  | RESERVADO, DISPONIBLE =>
      match op with OpComprar _ => false | _ => true end
  | RESERVADO, VENDIDO =>
      match op with OpComprar _ => true | _ => false end
  | _, _ => false
  end.

(** The sweep reading of an operation, if it has one, is at most [d]. *)
Definition barrido_hasta (d : Z) (op : Operacion) : Prop :=
  match op with
  | OpListar ahora | OpLiberar ahora | OpReservar ahora _ _ => (ahora ≤ d)%Z
  | OpComprar _ => True
  end.

(** The reading that fixes a deadline, if the operation has one, is at
    most [N]. *)
Definition plazo_hasta (N : Z) (op : Operacion) : Prop :=
  match op with
  | OpReservar _ ahora' _ => (ahora' ≤ N)%Z
  | _ => True
  end.

(** The operation is a sweep or a listing, read at [d] at the latest. *)
Definition solo_barrido_hasta (d : Z) (op : Operacion) : Prop :=
  match op with
  | OpListar ahora | OpLiberar ahora => (ahora ≤ d)%Z
  | _ => False
  end.

(** ** 7. The sweep, row by row *)

Section actualizaciones.
Context {A : Type} (f : A → A).

(** A run of in-place updates at distinct positions, each computed from
    the value stored there, read position by position. *)
Lemma foldl_insert_lookup (l : list (nat * A)) (t : list A) (j : nat) :
  NoDup l.*1 →
  (∀ i x, (i, x) ∈ l → t !! i = Some x) →
  foldl (λ t' ix, <[ix.1 := f ix.2]> t') t l !! j
  = if decide (j ∈ l.*1) then f <$> t !! j else t !! j.
Proof.
  revert t. induction l as [|[i x] l IH]; intros t Hnd Hl.
  - done.
  - rewrite fmap_cons in Hnd |- *. cbn [foldl fst snd] in Hnd |- *.
    apply NoDup_cons in Hnd as [Hi Hnd].
    assert (Hix : t !! i = Some x) by (apply Hl; left).
    rewrite IH; [|done|].
    + destruct (decide (j = i)) as [->|Hne].
      * rewrite decide_False by done.
        rewrite decide_True by left.
        rewrite list_lookup_insert_eq by eauto using lookup_lt_Some.
        by rewrite Hix.
      * rewrite list_lookup_insert_ne by done.
        destruct (decide (j ∈ l.*1)) as [Hj|Hj].
        -- rewrite decide_True; [done | by right].
        -- rewrite decide_False; [done|].
           intros [?|?]%elem_of_cons; done.
    + intros i' x' Hin. rewrite list_lookup_insert_ne.
      * apply Hl. by right.
      * intros ->. apply Hi. apply list_elem_of_fmap. by exists (i', x').
Qed.
End actualizaciones.

Lemma boletos_expirados_elem_of ahora t i b :
  (i, b) ∈ boletos_expirados ahora t ↔ t !! i = Some b ∧ expirado ahora b = true.
Proof.
  unfold boletos_expirados. rewrite list_elem_of_filter, elem_of_lookup_imap.
  simpl. split.
  - intros [? (i' & b' & [= -> ->] & ?)]. done.
  - intros [? ?]. split; [done|]. by exists i, b.
Qed.

Lemma boletos_expirados_NoDup ahora t : NoDup (boletos_expirados ahora t).*1.
Proof.
  unfold boletos_expirados.
  eapply sublist_NoDup; [|apply fmap_sublist, sublist_filter].
  rewrite fmap_imap, (imap_ext _ (λ i _, i)) by done.
  rewrite (imap_seq_0 t (λ i, i)), list_fmap_id.
  apply NoDup_seq.
Qed.

(** The loop over the selected rows is a row-wise map over the table. *)
Lemma liberar_reservas_expiradas_tabla ahora t :
  (liberar_reservas_expiradas ahora t).2 = barrer ahora <$> t.
Proof.
  unfold liberar_reservas_expiradas. simpl. apply list_eq. intros j.
  rewrite (foldl_insert_lookup liberar).
  - rewrite list_lookup_fmap. unfold barrer.
    destruct (t !! j) as [b|] eqn:Hj; simpl.
    + case_decide as Hin.
      * apply list_elem_of_fmap in Hin as ([i b'] & -> & Hin). simpl in *.
        apply boletos_expirados_elem_of in Hin as [Hb He].
        rewrite Hj in Hb. injection Hb as <-. by rewrite He.
      * destruct (expirado ahora b) eqn:He; [|done].
        exfalso. apply Hin. apply list_elem_of_fmap. exists (j, b).
        split; [done|]. by apply boletos_expirados_elem_of.
    + by case_decide.
  - apply boletos_expirados_NoDup.
  - intros i x Hin. by apply boletos_expirados_elem_of in Hin as [? _].
Qed.

Lemma liberar_reservas_expiradas_eq ahora t :
  liberar_reservas_expiradas ahora t = (tt, barrer ahora <$> t).
Proof.
  rewrite <-liberar_reservas_expiradas_tabla.
  by destruct (liberar_reservas_expiradas ahora t) as [[] ?].
Qed.

Lemma barrer_asiento ahora b : asiento (barrer ahora b) = asiento b.
Proof. unfold barrer. by destruct (expirado ahora b). Qed.

Lemma barrer_id ahora b : id (barrer ahora b) = id b.
Proof. unfold barrer. by destruct (expirado ahora b). Qed.

Lemma expirado_true ahora b :
  expirado ahora b = true ↔ estado b = RESERVADO ∧ (tiempo_limite b < ahora)%Z.
Proof.
  unfold expirado. rewrite andb_true_iff, !bool_decide_eq_true. done.
Qed.

Lemma barrer_no_reservado ahora b : estado b ≠ RESERVADO → barrer ahora b = b.
Proof.
  intros Hne. unfold barrer. destruct (expirado ahora b) eqn:He; [|done].
  apply expirado_true in He as [? _]. done.
Qed.

Lemma barrer_vigente ahora b : (ahora ≤ tiempo_limite b)%Z → barrer ahora b = b.
Proof.
  intros Hle. unfold barrer. destruct (expirado ahora b) eqn:He; [|done].
  apply expirado_true in He as [_ ?]. lia.
Qed.

Lemma barrer_expirado ahora b :
  estado b = RESERVADO → (tiempo_limite b < ahora)%Z → barrer ahora b = liberar b.
Proof.
  intros He Hlt. unfold barrer.
  by rewrite (proj2 (expirado_true ahora b)).
Qed.

Lemma barrer_idemp ahora b : barrer ahora (barrer ahora b) = barrer ahora b.
Proof.
  unfold barrer. destruct (expirado ahora b) eqn:He; [done | by rewrite He].
Qed.

(** ** 8. Lookup by name under the updates of the program *)

Lemma buscar_fmap (f : Boleto → Boleto) nombre t :
  (∀ b, asiento (f b) = asiento b) →
  buscar nombre (f <$> t) = (λ ib, (ib.1, f ib.2)) <$> buscar nombre t.
Proof.
  intros Hf. rewrite list_find_fmap.
  rewrite (list_find_ext _ (λ b, asiento b = nombre)).
  - by destruct (buscar nombre t) as [[i b]|].
  - intros b. simpl. by rewrite Hf.
Qed.

Lemma buscar_barrer ahora nombre t :
  buscar nombre (barrer ahora <$> t)
  = (λ ib, (ib.1, barrer ahora ib.2)) <$> buscar nombre t.
Proof. apply buscar_fmap, barrer_asiento. Qed.

(** Overwriting a row by one of the same name moves no lookup. *)
Lemma buscar_insert nombre t i v j b x :
  buscar nombre t = Some (i, v) →
  t !! j = Some b →
  asiento x = asiento b →
  buscar nombre (<[j:=x]> t) = Some (i, if decide (j = i) then x else v).
Proof.
  intros (Hi & Hv & Hmin)%list_find_Some Hj Hx. apply list_find_Some.
  assert (∀ k y, <[j:=x]> t !! k = Some y → ∃ y', t !! k = Some y' ∧ asiento y = asiento y')
    as Hsame.
  { intros k y [(-> & -> & _)|[_ ?]]%list_lookup_insert_Some; eauto. }
  split_and!.
  - case_decide as Hji.
    + subst j. apply list_lookup_insert_eq. eauto using lookup_lt_Some.
    + by rewrite list_lookup_insert_ne.
  - case_decide as Hji; [|done]. subst j. rewrite Hx.
    rewrite Hi in Hj. by injection Hj as <-.
  - intros k y Hk Hlt. apply Hsame in Hk as (y' & Hk & ->). eauto.
Qed.

(** ** 9. The endpoints, case by case *)

Lemma get_boletos_eq ahora t :
  get_boletos ahora t = (to_dict <$> (barrer ahora <$> t), barrer ahora <$> t).
Proof.
  unfold get_boletos, mbind, Sesion_bind.
  by rewrite liberar_reservas_expiradas_eq.
Qed.

Lemma reservar_boleto_no_encontrado ahora ahora' nombre t :
  buscar nombre t = None →
  reservar_boleto ahora ahora' nombre t
  = ({| codigo := 404; message := "Asiento no encontrado.";
        estado_json := None |}, barrer ahora <$> t).
Proof.
  intros Hb. unfold reservar_boleto, mbind, Sesion_bind.
  rewrite liberar_reservas_expiradas_eq. unfold query_filter_by_asiento.
  by rewrite buscar_barrer, Hb.
Qed.

Lemma reservar_boleto_exito ahora ahora' nombre t i b :
  buscar nombre t = Some (i, b) →
  estado (barrer ahora b) = DISPONIBLE →
  ∃ m, reservar_boleto ahora ahora' nombre t
       = ({| codigo := 200; message := m; estado_json := Some RESERVADO |},
          <[i := reservado b (ahora' + RESERVA_DURACION_SEGUNDOS)]>
            (barrer ahora <$> t)).
Proof.
  intros Hb He. unfold reservar_boleto, mbind, Sesion_bind.
  rewrite liberar_reservas_expiradas_eq. unfold query_filter_by_asiento.
  rewrite buscar_barrer, Hb. simpl. rewrite decide_True by done.
  unfold commit_boleto, mret, Sesion_ret, reservado.
  rewrite barrer_id, barrer_asiento. eauto.
Qed.

Lemma reservar_boleto_conflicto ahora ahora' nombre t i b :
  buscar nombre t = Some (i, b) →
  estado (barrer ahora b) ≠ DISPONIBLE →
  ∃ m, reservar_boleto ahora ahora' nombre t
       = ({| codigo := 409; message := m;
             estado_json := Some (estado (barrer ahora b)) |},
          barrer ahora <$> t).
Proof.
  intros Hb He. unfold reservar_boleto, mbind, Sesion_bind.
  rewrite liberar_reservas_expiradas_eq. unfold query_filter_by_asiento.
  rewrite buscar_barrer, Hb. simpl. rewrite decide_False by done.
  unfold mret, Sesion_ret. eauto.
Qed.

Lemma comprar_boleto_no_encontrado nombre t :
  buscar nombre t = None →
  comprar_boleto nombre t
  = ({| codigo := 404; message := "Asiento no encontrado.";
        estado_json := None |}, t).
Proof.
  intros Hb. unfold comprar_boleto, mbind, Sesion_bind, query_filter_by_asiento.
  by rewrite Hb.
Qed.

Lemma comprar_boleto_exito nombre t i b :
  buscar nombre t = Some (i, b) →
  estado b = RESERVADO →
  ∃ m, comprar_boleto nombre t
       = ({| codigo := 200; message := m; estado_json := Some VENDIDO |},
          <[i := vendido b]> t).
Proof.
  intros Hb He. unfold comprar_boleto, mbind, Sesion_bind, query_filter_by_asiento.
  rewrite Hb. rewrite decide_True by done.
  unfold commit_boleto, mret, Sesion_ret, vendido. eauto.
Qed.

Lemma comprar_boleto_conflicto nombre t i b :
  buscar nombre t = Some (i, b) →
  estado b ≠ RESERVADO →
  ∃ m, comprar_boleto nombre t
       = ({| codigo := 409; message := m; estado_json := Some (estado b) |}, t).
Proof.
  intros Hb He. unfold comprar_boleto, mbind, Sesion_bind, query_filter_by_asiento.
  rewrite Hb. rewrite decide_False by done.
  unfold mret, Sesion_ret. eauto.
Qed.

Lemma buscar_lookup nombre (t : Tabla) i b :
  buscar nombre t = Some (i, b) → t !! i = Some b ∧ asiento b = nombre.
Proof. intros (? & ? & _)%list_find_Some. done. Qed.

Lemma reservar_sucesivo_cons c relojes nombre t :
  reservar_sucesivo (c :: relojes) nombre t
  = let r := reservar_boleto c.1 c.2 nombre t in
    let rs := reservar_sucesivo relojes nombre r.2 in
    (r.1 :: rs.1, rs.2).
Proof.
  cbn [reservar_sucesivo]. unfold mbind, Sesion_bind.
  destruct (reservar_boleto c.1 c.2 nombre t) as [r t1]. simpl.
  by destruct (reservar_sucesivo relojes nombre t1) as [rs t2].
Qed.

(** A hold that no sweep reading has passed answers every further
    reservation with a conflict and stays as it is. *)
Lemma reservar_sucesivo_reservado relojes nombre t i b :
  buscar nombre t = Some (i, b) →
  estado b = RESERVADO →
  Forall (λ c, (c.1 ≤ tiempo_limite b)%Z) relojes →
  let rs := reservar_sucesivo relojes nombre t in
  length rs.1 = length relojes ∧
  Forall (λ r, codigo r = 409%Z ∧ estado_json r = Some RESERVADO) rs.1 ∧
  buscar nombre rs.2 = Some (i, b).
Proof.
  intros Hb He Hrel. revert t Hb.
  induction Hrel as [|c relojes Hc _ IH]; intros t Hb.
  - by split_and!.
  - rewrite reservar_sucesivo_cons.
    assert (barrer c.1 b = b) as Hvig by by apply barrer_vigente.
    destruct (reservar_boleto_conflicto c.1 c.2 nombre t i b) as [m ->];
      [done | by rewrite Hvig, He |].
    rewrite Hvig, He. cbn [fst snd].
    destruct (IH (barrer c.1 <$> t)) as (Hlen & Hall & Hfin).
    { by rewrite buscar_barrer, Hb; simpl; rewrite Hvig. }
    split_and!; [by simpl; rewrite Hlen | by constructor | done].
Qed.

(** ** 10. Reservation *)

(** C1. Reserving an available seat through its label, with the sweep
    reading [T] and the deadline reading [T'], answers 200 with status
    RESERVADO and leaves the seat RESERVADO with deadline [T' + 30]; every
    further reservation of the label whose sweep reading is strictly
    before that deadline answers 409 with status RESERVADO and leaves the
    seat, status and deadline, as it was. *)
Theorem reservar_disponible_y_reintento (t : Tabla) nombre i b (T T' : Z) :
  buscar nombre t = Some (i, b) →
  estado b = DISPONIBLE →
  let limite := (T' + RESERVA_DURACION_SEGUNDOS)%Z in
  let r := reservar_boleto T T' nombre t in
  RESERVA_DURACION_SEGUNDOS = 30%Z ∧
  codigo r.1 = 200%Z ∧ estado_json r.1 = Some RESERVADO ∧
  buscar nombre r.2 = Some (i, reservado b limite) ∧
  ∀ relojes : list (Z * Z),
    Forall (λ c, (c.1 < limite)%Z) relojes →
    let rs := reservar_sucesivo relojes nombre r.2 in
    length rs.1 = length relojes ∧
    Forall (λ r', codigo r' = 409%Z ∧ estado_json r' = Some RESERVADO) rs.1 ∧
    buscar nombre rs.2 = Some (i, reservado b limite).
Proof.
  intros Hb He limite r.
  assert (barrer T b = b) as Hbar by (apply barrer_no_reservado; congruence).
  destruct (reservar_boleto_exito T T' nombre t i b) as [m Hr];
    [done | by rewrite Hbar |].
  subst r. rewrite Hr. cbn [fst snd]. fold limite.
  assert (buscar nombre (<[i:=reservado b limite]> (barrer T <$> t))
          = Some (i, reservado b limite)) as Hb'.
  { erewrite (buscar_insert nombre _ i (barrer T b) i (barrer T b)).
    - by rewrite decide_True.
    - by rewrite buscar_barrer, Hb.
    - rewrite list_lookup_fmap. by destruct (buscar_lookup _ _ _ _ Hb) as [-> _].
    - by rewrite barrer_asiento. }
  split_and!; [done..|].
  intros relojes Hrel. apply reservar_sucesivo_reservado; [done..|].
  eapply Forall_impl; [exact Hrel|]. simpl. intros c ?. lia.
Qed.

Lemma reservar_disponible_y_reintento_witness :
  let r := reservar_boleto 100 100 "A1" inventario_inicial in
  codigo r.1 = 200%Z ∧
  Forall (λ r', codigo r' = 409%Z ∧ estado_json r' = Some RESERVADO)
         (reservar_sucesivo [(110, 110); (129, 131)]%Z "A1" r.2).1.
Proof.
  destruct (reservar_disponible_y_reintento inventario_inicial "A1" 0
              (mkBoleto 1 "A1" DISPONIBLE 0) 100 100)
    as (_ & Hcod & _ & _ & Hre).
  - vm_compute. reflexivity.
  - reflexivity.
  - split; [exact Hcod|].
    apply (Hre [(110, 110); (129, 131)]%Z).
    repeat constructor.
Defined.

(** ** 11. The invariant of the data model *)

Lemma coherente_barrer ahora b : coherente b → coherente (barrer ahora b).
Proof.
  intros Hb. unfold barrer. destruct (expirado ahora b); [|done].
  split; simpl; [|done]. split; [done | lia].
Qed.

Lemma coherente_reservado b ahora' :
  (0 ≤ ahora')%Z → coherente (reservado b (ahora' + RESERVA_DURACION_SEGUNDOS)).
Proof.
  intros Hpos. unfold coherente, reservado, RESERVA_DURACION_SEGUNDOS. simpl.
  split; [|done]. split; [lia | done].
Qed.

Lemma coherente_vendido b : coherente (vendido b).
Proof. split; simpl; [|done]. split; [done | lia]. Qed.

Lemma inventario_inicial_coherente : Forall coherente inventario_inicial.
Proof.
  unfold inventario_inicial. apply Forall_fmap, Forall_forall. intros n _.
  split; simpl; [|done]. split; [done | lia].
Qed.

(** One operation keeps every row coherent. *)
Lemma ejecutar_coherente op t :
  reloj_unix op → Forall coherente t → Forall coherente (ejecutar op t).
Proof.
  intros Hop Ht.
  assert (∀ ahora, Forall coherente (barrer ahora <$> t)) as Hbar.
  { intros ahora. apply Forall_fmap. eapply Forall_impl; [exact Ht|].
    intros b. apply coherente_barrer. }
  destruct op as [ahora|ahora ahora' nombre|nombre|ahora];
    cbn [ejecutar reloj_unix] in *.
  - rewrite get_boletos_eq. apply Hbar.
  - destruct (buscar nombre t) as [[i b]|] eqn:Hb.
    + destruct (decide (estado (barrer ahora b) = DISPONIBLE)) as [He|He].
      * destruct (reservar_boleto_exito ahora ahora' nombre t i b) as [m ->];
          [done..|]. cbn [snd].
        apply Forall_insert; [apply Hbar|]. by apply coherente_reservado.
      * destruct (reservar_boleto_conflicto ahora ahora' nombre t i b)
          as [m ->]; [done..|]. apply Hbar.
    + rewrite reservar_boleto_no_encontrado by done. apply Hbar.
  - destruct (buscar nombre t) as [[i b]|] eqn:Hb.
    + destruct (decide (estado b = RESERVADO)) as [He|He].
      * destruct (comprar_boleto_exito nombre t i b) as [m ->]; [done..|].
        cbn [snd]. apply Forall_insert; [done|]. apply coherente_vendido.
      * by destruct (comprar_boleto_conflicto nombre t i b) as [m ->].
    + by rewrite comprar_boleto_no_encontrado.
  - rewrite liberar_reservas_expiradas_eq. apply Hbar.
Qed.

Lemma ejecutar_todas_coherente ops t :
  Forall reloj_unix ops → Forall coherente t →
  Forall coherente (ejecutar_todas ops t).
Proof.
  intros Hops. revert t. unfold ejecutar_todas.
  induction Hops as [|op ops Hop _ IH]; intros t Ht; simpl; [done|].
  by apply IH, ejecutar_coherente.
Qed.

(** C2. After any sequence of list, reserve, purchase and sweep
    operations on the initial inventory, with the Unix clock (no negative
    reading), every seat is RESERVADO if and only if its deadline is
    strictly positive, and a seat that is DISPONIBLE or VENDIDO has
    deadline 0. *)
Theorem estado_y_limite_coherentes (ops : list Operacion) (b : Boleto) :
  Forall reloj_unix ops →
  b ∈ ejecutar_todas ops inventario_inicial →
  (estado b = RESERVADO ↔ (0 < tiempo_limite b)%Z) ∧
  (estado b = DISPONIBLE ∨ estado b = VENDIDO → tiempo_limite b = 0%Z).
Proof.
  intros Hops Hin.
  pose proof (ejecutar_todas_coherente ops _ Hops inventario_inicial_coherente)
    as Hall.
  rewrite Forall_forall in Hall. destruct (Hall b Hin) as [Hiff Hz].
  split; [done|]. intros [He|He]; apply Hz; congruence.
Qed.

Lemma estado_y_limite_coherentes_witness :
  let ops := [OpReservar 0 0 "A1"; OpComprar "A1"; OpReservar 10 10 "A2"] in
  let b := mkBoleto 2 "A2" RESERVADO 40 in
  b ∈ ejecutar_todas ops inventario_inicial ∧
  (estado b = RESERVADO ↔ (0 < tiempo_limite b)%Z) ∧
  (estado b = DISPONIBLE ∨ estado b = VENDIDO → tiempo_limite b = 0%Z).
Proof.
  intros ops b.
  assert (b ∈ ejecutar_todas ops inventario_inicial) as Hin.
  { apply (list_elem_of_lookup_2 _ 1). vm_compute. reflexivity. }
  split; [exact Hin|].
  apply (estado_y_limite_coherentes ops b); [|exact Hin].
  subst ops. repeat apply Forall_cons_2; try apply Forall_nil_2; simpl;
    first [lia | exact I].
Defined.

(** The clock hypothesis of C2 is about readings before 1970 only: a
    deadline reading of -30 would store a hold with deadline 0. *)
Remark reserva_con_reloj_negativo :
  (reservar_boleto (-30) (-30) "A1" inventario_inicial).2 !! 0
  = Some (mkBoleto 1 "A1" RESERVADO 0).
Proof. vm_compute. reflexivity. Qed.

(** ** 12. The sweep *)

(** C3. For a seat that is RESERVADO, the sweep at [ahora] makes it
    DISPONIBLE with deadline 0 exactly when its deadline is strictly
    before [ahora], and leaves the row as it is when [ahora] is at most
    the deadline; a second sweep with the same [ahora] returns the table
    of the first. *)
Theorem barrido_reservado_e_idempotente (ahora : Z) (t : Tabla) :
  (∀ i b, t !! i = Some b → estado b = RESERVADO →
     let t' := (liberar_reservas_expiradas ahora t).2 in
     (t' !! i = Some (mkBoleto (id b) (asiento b) DISPONIBLE 0)
      ↔ (tiempo_limite b < ahora)%Z) ∧
     ((ahora ≤ tiempo_limite b)%Z → t' !! i = Some b)) ∧
  liberar_reservas_expiradas ahora (liberar_reservas_expiradas ahora t).2
  = liberar_reservas_expiradas ahora t.
Proof.
  split.
  - intros i b Hi He t'. subst t'.
    rewrite liberar_reservas_expiradas_eq. cbn [snd].
    rewrite list_lookup_fmap, Hi. simpl. split.
    + split.
      * intros [= Hbar]. destruct (decide (tiempo_limite b < ahora)%Z); [done|].
        rewrite barrer_vigente in Hbar by lia.
        apply (f_equal estado) in Hbar. simpl in Hbar. congruence.
      * intros Hlt. by rewrite barrer_expirado.
    + intros Hle. by rewrite barrer_vigente.
  - rewrite !liberar_reservas_expiradas_eq. cbn [snd]. f_equal.
    rewrite <-list_fmap_compose. apply list_fmap_ext. intros _ b _. simpl.
    apply barrer_idemp.
Qed.

Lemma barrido_reservado_e_idempotente_witness :
  let t := [mkBoleto 1 "S1" VENDIDO 0; mkBoleto 2 "S2" RESERVADO 40;
            mkBoleto 3 "S3" RESERVADO 41] in
  (liberar_reservas_expiradas 41 t).2 !! 1 = Some (mkBoleto 2 "S2" DISPONIBLE 0) ∧
  (liberar_reservas_expiradas 41 t).2 !! 2 = Some (mkBoleto 3 "S3" RESERVADO 41).
Proof.
  intros t. split.
  - apply (proj1 (barrido_reservado_e_idempotente 41 t) 1
             (mkBoleto 2 "S2" RESERVADO 40) eq_refl eq_refl).
    reflexivity.
  - apply (proj1 (barrido_reservado_e_idempotente 41 t) 2
             (mkBoleto 3 "S3" RESERVADO 41) eq_refl eq_refl).
    discriminate.
Defined.

(** ** 13. Purchase *)

Lemma buscar_barrer_Some ahora nombre (t : Tabla) i b :
  buscar nombre t = Some (i, b) →
  buscar nombre (barrer ahora <$> t) = Some (i, barrer ahora b).
Proof. intros Hb. by rewrite buscar_barrer, Hb. Qed.

(** No operation touches a sold row, nor moves its name to another row. *)
Lemma ejecutar_vendido op nombre (t : Tabla) i v :
  buscar nombre t = Some (i, v) →
  estado v = VENDIDO →
  buscar nombre (ejecutar op t) = Some (i, v).
Proof.
  intros Hv He.
  assert (∀ ahora, barrer ahora v = v) as Hbv.
  { intros ahora. apply barrer_no_reservado. congruence. }
  assert (∀ ahora, buscar nombre (barrer ahora <$> t) = Some (i, v)) as Hbar.
  { intros ahora. by rewrite (buscar_barrer_Some _ _ _ i v), Hbv. }
  destruct (buscar_lookup _ _ _ _ Hv) as [Hi _].
  destruct op as [ahora|ahora ahora' nombre'|nombre'|ahora]; cbn [ejecutar].
  - rewrite get_boletos_eq. apply Hbar.
  - destruct (buscar nombre' t) as [[j b]|] eqn:Hb.
    + destruct (buscar_lookup _ _ _ _ Hb) as [Hj _].
      destruct (decide (estado (barrer ahora b) = DISPONIBLE)) as [Hd|Hd].
      * destruct (reservar_boleto_exito ahora ahora' nombre' t j b) as [m ->];
          [done..|]. cbn [snd].
        erewrite (buscar_insert nombre _ i v j (barrer ahora b)); [|apply Hbar| |].
        -- case_decide as Hji; [|done]. subst j.
           rewrite Hi in Hj. injection Hj as <-. rewrite Hbv in Hd. congruence.
        -- by rewrite list_lookup_fmap, Hj.
        -- by rewrite barrer_asiento.
      * destruct (reservar_boleto_conflicto ahora ahora' nombre' t j b)
          as [m ->]; [done..|]. apply Hbar.
    + rewrite reservar_boleto_no_encontrado by done. apply Hbar.
  - destruct (buscar nombre' t) as [[j b]|] eqn:Hb.
    + destruct (buscar_lookup _ _ _ _ Hb) as [Hj _].
      destruct (decide (estado b = RESERVADO)) as [Hd|Hd].
      * destruct (comprar_boleto_exito nombre' t j b) as [m ->]; [done..|].
        cbn [snd].
        erewrite (buscar_insert nombre _ i v j b); [|done..].
        case_decide as Hji; [|done]. subst j.
        rewrite Hi in Hj. injection Hj as <-. congruence.
      * by destruct (comprar_boleto_conflicto nombre' t j b) as [m ->].
    + by rewrite comprar_boleto_no_encontrado.
  - rewrite liberar_reservas_expiradas_eq. apply Hbar.
Qed.

Lemma ejecutar_todas_vendido ops nombre (t : Tabla) i v :
  buscar nombre t = Some (i, v) →
  estado v = VENDIDO →
  buscar nombre (ejecutar_todas ops t) = Some (i, v).
Proof.
  intros Hv He. revert t Hv. unfold ejecutar_todas.
  induction ops as [|op ops IH]; intros t Hv; simpl; [done|].
  by apply IH, ejecutar_vendido.
Qed.

(** C4. VENDIDO is absorbing. A purchase of a reserved seat answers 200
    and leaves the seat VENDIDO with deadline 0; after any further
    sequence of operations the label still designates that same row, a
    reservation of it answers 409 with status VENDIDO and leaves the row
    as it is, a purchase of it answers 409 with status VENDIDO and leaves
    the whole table as it is, and a sweep leaves the row as it is. *)
Theorem vendido_es_absorbente (t : Tabla) nombre i b (ops : list Operacion) :
  buscar nombre t = Some (i, b) →
  estado b = RESERVADO →
  let c := comprar_boleto nombre t in
  let t' := ejecutar_todas ops c.2 in
  codigo c.1 = 200%Z ∧ estado_json c.1 = Some VENDIDO ∧
  estado (vendido b) = VENDIDO ∧ tiempo_limite (vendido b) = 0%Z ∧
  buscar nombre c.2 = Some (i, vendido b) ∧
  buscar nombre t' = Some (i, vendido b) ∧
  (∀ ahora ahora',
     let r := reservar_boleto ahora ahora' nombre t' in
     codigo r.1 = 409%Z ∧ estado_json r.1 = Some VENDIDO ∧
     buscar nombre r.2 = Some (i, vendido b)) ∧
  (let c' := comprar_boleto nombre t' in
   codigo c'.1 = 409%Z ∧ estado_json c'.1 = Some VENDIDO ∧ c'.2 = t') ∧
  (∀ ahora,
     buscar nombre (liberar_reservas_expiradas ahora t').2 = Some (i, vendido b)).
Proof.
  intros Hb He c t'.
  destruct (buscar_lookup _ _ _ _ Hb) as [Hi Hnom].
  destruct (comprar_boleto_exito nombre t i b) as [m Hc]; [done..|].
  assert (buscar nombre c.2 = Some (i, vendido b)) as Hc2.
  { subst c. rewrite Hc. cbn [snd].
    erewrite (buscar_insert nombre t i b i b); [|done..].
    by rewrite decide_True. }
  assert (buscar nombre t' = Some (i, vendido b)) as Ht'
    by by apply ejecutar_todas_vendido.
  split_and!; [by subst c; rewrite Hc..|done|done|done|done| | |].
  - intros ahora ahora' r. subst r.
    destruct (reservar_boleto_conflicto ahora ahora' nombre t' i (vendido b))
      as [m' Hr]; [done..|].
    rewrite Hr. cbn [fst snd codigo estado_json]. split_and!; [done..|].
    by apply (ejecutar_vendido (OpLiberar ahora)) in Ht';
      [cbn [ejecutar] in Ht'; rewrite liberar_reservas_expiradas_eq in Ht'|].
  - intros c'. subst c'.
    destruct (comprar_boleto_conflicto nombre t' i (vendido b)) as [m' ->];
      done.
  - intros ahora. by apply (ejecutar_vendido (OpLiberar ahora)).
Qed.

Lemma vendido_es_absorbente_witness :
  let t := (reservar_boleto 0 0 "A1" inventario_inicial).2 in
  let t' := ejecutar_todas [OpListar 41; OpReservar 41 41 "A1"; OpComprar "A1"]
                           (comprar_boleto "A1" t).2 in
  buscar "A1" t' = Some (0, mkBoleto 1 "A1" VENDIDO 0).
Proof.
  intros t t'.
  destruct (vendido_es_absorbente t "A1" 0 (mkBoleto 1 "A1" RESERVADO 30)
              [OpListar 41; OpReservar 41 41 "A1"; OpComprar "A1"])
    as (_ & _ & _ & _ & _ & H & _).
  - vm_compute. reflexivity.
  - reflexivity.
  - exact H.
Defined.

(** The purchase commutes with forgetting every deadline of the table:
    no deadline enters its answer or its choice of branch. *)
Lemma comprar_boleto_sin_limite nombre (t : Tabla) :
  comprar_boleto nombre (sin_limite <$> t)
  = ((comprar_boleto nombre t).1, sin_limite <$> (comprar_boleto nombre t).2).
Proof.
  unfold comprar_boleto, mbind, Sesion_bind, query_filter_by_asiento.
  rewrite (buscar_fmap sin_limite) by done.
  destruct (buscar nombre t) as [[i b]|]; simpl; [|done].
  destruct (decide (estado b = RESERVADO)); simpl; [|done].
  unfold commit_boleto, mret, Sesion_ret. simpl.
  by rewrite list_fmap_insert.
Qed.

(** C5. A purchase of a seat that is RESERVADO answers 200 with status
    VENDIDO and leaves the seat VENDIDO with deadline 0, whatever its
    deadline: also at a time [ahora] strictly after the deadline, when a
    sweep at [ahora] would have released the seat and the purchase after
    that sweep would answer 409. The purchase reads no clock, and
    forgetting every deadline of the table changes neither its answer nor
    the rows it writes. *)
Theorem comprar_reservado_sin_mirar_limite (t : Tabla) nombre i b :
  buscar nombre t = Some (i, b) →
  estado b = RESERVADO →
  let c := comprar_boleto nombre t in
  codigo c.1 = 200%Z ∧ estado_json c.1 = Some VENDIDO ∧
  c.2 = <[i := vendido b]> t ∧
  buscar nombre c.2 = Some (i, mkBoleto (id b) (asiento b) VENDIDO 0) ∧
  (∀ ahora, (tiempo_limite b < ahora)%Z →
     expirado ahora b = true ∧
     let c' := comprar_boleto nombre (liberar_reservas_expiradas ahora t).2 in
     codigo c'.1 = 409%Z ∧ estado_json c'.1 = Some DISPONIBLE) ∧
  comprar_boleto nombre (sin_limite <$> t) = (c.1, sin_limite <$> c.2).
Proof.
  intros Hb He c.
  destruct (comprar_boleto_exito nombre t i b) as [m Hc]; [done..|].
  subst c. rewrite comprar_boleto_sin_limite. rewrite Hc. cbn [fst snd].
  split_and!; [done..| | |done].
  - erewrite (buscar_insert nombre t i b i b);
      [by rewrite decide_True | done | | done].
    by destruct (buscar_lookup _ _ _ _ Hb).
  - intros ahora Hlt. split; [by apply expirado_true|].
    rewrite liberar_reservas_expiradas_eq. cbn [snd].
    destruct (comprar_boleto_conflicto nombre (barrer ahora <$> t) i
                (barrer ahora b)) as [m' ->].
    + by apply buscar_barrer_Some.
    + by rewrite barrer_expirado.
    + by rewrite barrer_expirado.
Qed.

Lemma comprar_reservado_sin_mirar_limite_witness :
  let t := [mkBoleto 1 "S1" RESERVADO 30; mkBoleto 2 "S2" DISPONIBLE 0] in
  expirado 1000 (mkBoleto 1 "S1" RESERVADO 30) = true ∧
  codigo (comprar_boleto "S1" t).1 = 200%Z ∧
  (comprar_boleto "S1" t).2
  = [mkBoleto 1 "S1" VENDIDO 0; mkBoleto 2 "S2" DISPONIBLE 0].
Proof.
  intros t.
  destruct (comprar_reservado_sin_mirar_limite t "S1" 0
              (mkBoleto 1 "S1" RESERVADO 30) eq_refl eq_refl)
    as (Hcod & _ & Htab & _ & Hexp & _).
  split_and!; [|exact Hcod|exact Htab].
  apply (Hexp 1000%Z). reflexivity.
Defined.

(** C10. The purchase runs no sweep and writes at most the row its label
    designates: a row with another label is left as it is in every
    outcome, expired hold or not, and when the answer is 409 or 404 the
    whole table is as before the call. The answer is always one of 200,
    409 and 404. *)
Theorem comprar_boleto_marco nombre (t : Tabla) :
  let c := comprar_boleto nombre t in
  (∀ j b, t !! j = Some b → asiento b ≠ nombre → c.2 !! j = Some b) ∧
  (codigo c.1 = 409%Z ∨ codigo c.1 = 404%Z → c.2 = t) ∧
  (codigo c.1 = 200%Z ∨ codigo c.1 = 409%Z ∨ codigo c.1 = 404%Z) ∧
  (c.2 = t ∨
   ∃ i b, buscar nombre t = Some (i, b) ∧ c.2 = <[i := vendido b]> t).
Proof.
  intros c. subst c.
  destruct (buscar nombre t) as [[i b]|] eqn:Hb.
  - destruct (buscar_lookup _ _ _ _ Hb) as [Hi Hnom].
    destruct (decide (estado b = RESERVADO)) as [He|He].
    + destruct (comprar_boleto_exito nombre t i b) as [m ->]; [done..|].
      cbn [fst snd codigo]. split_and!.
      * intros j b' Hj Hne. rewrite list_lookup_insert_ne; [done|].
        intros ->. rewrite Hi in Hj. injection Hj as <-. done.
      * intros [?|?]; discriminate.
      * by left.
      * right. by exists i, b.
    + destruct (comprar_boleto_conflicto nombre t i b) as [m ->]; [done..|].
      cbn [fst snd codigo]. split_and!; [done|done| |by left].
      right. by left.
  - rewrite comprar_boleto_no_encontrado by done.
    cbn [fst snd codigo]. split_and!; [done|done| |by left].
    right. by right.
Qed.

Lemma comprar_boleto_marco_witness :
  let t := [mkBoleto 1 "S1" RESERVADO 30; mkBoleto 2 "S2" RESERVADO 5] in
  (comprar_boleto "S1" t).2 !! 1 = Some (mkBoleto 2 "S2" RESERVADO 5) ∧
  (comprar_boleto "S3" t).2 = t.
Proof.
  intros t. split.
  - apply (proj1 (comprar_boleto_marco "S1" t) 1); [reflexivity | discriminate].
  - apply (proj1 (proj2 (comprar_boleto_marco "S3" t))). right. reflexivity.
Defined.

(** ** 14. Unknown labels *)

(** C9. For a label that no row of the table carries, reservation and
    purchase both answer 404 "Asiento no encontrado." with no status,
    for every table and every clock reading; the answer is the same
    record whatever the rows hold. *)
Theorem etiqueta_desconocida nombre (t : Tabla) (ahora ahora' : Z) :
  (∀ b, b ∈ t → asiento b ≠ nombre) →
  let no_encontrado :=
    {| codigo := 404; message := "Asiento no encontrado.";
       estado_json := None |} in
  (reservar_boleto ahora ahora' nombre t).1 = no_encontrado ∧
  (comprar_boleto nombre t).1 = no_encontrado ∧
  (comprar_boleto nombre t).2 = t.
Proof.
  intros Hno no_encontrado.
  assert (buscar nombre t = None) as Hb.
  { apply list_find_None, Forall_forall. exact Hno. }
  rewrite reservar_boleto_no_encontrado, comprar_boleto_no_encontrado by done.
  done.
Qed.

Lemma etiqueta_desconocida_witness :
  codigo (reservar_boleto 41 41 "Z99" inventario_inicial).1 = 404%Z ∧
  codigo (comprar_boleto "Z99" inventario_inicial).1 = 404%Z.
Proof.
  assert (∀ b, b ∈ inventario_inicial → asiento b ≠ "Z99") as Hno.
  { apply Forall_forall. unfold inventario_inicial. apply Forall_fmap.
    apply Forall_forall. intros n _. simpl. discriminate. }
  destruct (etiqueta_desconocida "Z99" inventario_inicial 41 41 Hno)
    as (-> & -> & _).
  split; reflexivity.
Defined.

(** ** 15. Listing *)

(** C8. The listing sweeps the whole table before it reads it: the
    snapshots it returns are those of the table it leaves, row by row;
    that table holds no row that is RESERVADO with a deadline strictly
    before [ahora]; and a snapshot with status RESERVADO is that of a row
    that was RESERVADO before the call, with a deadline not before
    [ahora]. *)
Theorem get_boletos_sin_reservas_vencidas (ahora : Z) (t : Tabla) :
  let g := get_boletos ahora t in
  g.2 = (liberar_reservas_expiradas ahora t).2 ∧
  g.1 = to_dict <$> g.2 ∧
  (∀ b, b ∈ g.2 → ¬ (estado b = RESERVADO ∧ (tiempo_limite b < ahora)%Z)) ∧
  (∀ i d, g.1 !! i = Some d → dict_estado d = RESERVADO →
     ∃ b, t !! i = Some b ∧ g.2 !! i = Some b ∧ d = to_dict b ∧
          estado b = RESERVADO ∧ (ahora ≤ tiempo_limite b)%Z).
Proof.
  intros g. subst g. rewrite get_boletos_eq, liberar_reservas_expiradas_eq.
  cbn [fst snd]. split_and!; [done..| |].
  - intros b' (b & -> & _)%list_elem_of_fmap [He Hlt].
    unfold barrer in He, Hlt. destruct (expirado ahora b) eqn:Hex; [done|].
    apply not_true_iff_false in Hex. apply Hex, expirado_true. done.
  - intros i d Hd He. rewrite !list_lookup_fmap in Hd.
    destruct (t !! i) as [b|] eqn:Hi; [|done]. simpl in Hd.
    injection Hd as <-. simpl in He.
    unfold barrer in He. destruct (expirado ahora b) eqn:Hex; [done|].
    exists b. rewrite list_lookup_fmap, Hi. simpl. unfold barrer.
    rewrite Hex. split_and!; [done..|].
    destruct (decide (ahora ≤ tiempo_limite b)%Z); [done|].
    apply not_true_iff_false in Hex. exfalso. apply Hex, expirado_true.
    split; [done | lia].
Qed.

Lemma get_boletos_sin_reservas_vencidas_witness :
  let t := [mkBoleto 1 "S1" VENDIDO 0; mkBoleto 2 "S2" RESERVADO 40;
            mkBoleto 3 "S3" RESERVADO 50] in
  ∃ b, t !! 2 = Some b ∧ (41 ≤ tiempo_limite b)%Z.
Proof.
  intros t.
  destruct (proj2 (proj2 (proj2 (get_boletos_sin_reservas_vencidas 41 t)))
              2 (mkBoletoDict 3 "S3" RESERVADO) eq_refl eq_refl)
    as (b & Hb & _ & _ & _ & Hle).
  exists b. split; [exact Hb | exact Hle].
Defined.

(** ** 16. Which operations sweep, and how far *)

Lemma barrer_barrer_tabla ahora (t : Tabla) :
  barrer ahora <$> (barrer ahora <$> t) = barrer ahora <$> t.
Proof.
  rewrite <-list_fmap_compose. apply list_fmap_ext. intros _ b _.
  apply barrer_idemp.
Qed.

(** C6, as stated, fails for the purchase: on a hold whose deadline has
    passed, [comprar_boleto] sells the seat, where a purchase that swept
    first would answer 409 on the released seat. *)
Lemma compra_sin_barrido_counterexample :
  let t := [mkBoleto 1 "S1" RESERVADO 30] in
  comprar_boleto "S1" t
  = ({| codigo := 200;
        message := "¡Compra exitosa! Asiento S1 VENDIDO permanentemente.";
        estado_json := Some VENDIDO |},
     [mkBoleto 1 "S1" VENDIDO 0]) ∧
  comprar_boleto_con_barrido 31 "S1" t
  = ({| codigo := 409;
        message := "El asiento S1 no está reservado o ya fue vendido.";
        estado_json := Some DISPONIBLE |},
     [mkBoleto 1 "S1" DISPONIBLE 0]) ∧
  comprar_boleto "S1" t ≠ comprar_boleto_con_barrido 31 "S1" t.
Proof. split_and!; [reflexivity | reflexivity | discriminate]. Qed.

(** C6, amended. The listing and the reservation run the sweep of the
    whole table first: the listing reads the swept table, and the
    reservation acts as on the swept table, so that a hold on the named
    seat whose deadline has passed is released and the seat reserved anew.
    The purchase runs no sweep: it sells a seat that is RESERVADO even
    when its deadline has passed, and releases no other row. *)
Theorem barrido_antes_de_listar_y_reservar (ahora : Z) (t : Tabla) :
  let t1 := (liberar_reservas_expiradas ahora t).2 in
  get_boletos ahora t = (to_dict <$> t1, t1) ∧
  (∀ ahora' nombre,
     reservar_boleto ahora ahora' nombre t
     = reservar_boleto ahora ahora' nombre t1) ∧
  (∀ ahora' nombre i b,
     buscar nombre t = Some (i, b) → expirado ahora b = true →
     let r := reservar_boleto ahora ahora' nombre t in
     codigo r.1 = 200%Z ∧
     r.2 = <[i := reservado b (ahora' + RESERVA_DURACION_SEGUNDOS)]> t1) ∧
  (∀ nombre i b,
     buscar nombre t = Some (i, b) → expirado ahora b = true →
     let c := comprar_boleto nombre t in
     codigo c.1 = 200%Z ∧ estado_json c.1 = Some VENDIDO ∧
     c.2 = <[i := vendido b]> t).
Proof.
  intros t1. subst t1. rewrite liberar_reservas_expiradas_eq. cbn [snd].
  split_and!.
  - apply get_boletos_eq.
  - intros ahora' nombre. unfold reservar_boleto, mbind, Sesion_bind.
    by rewrite !liberar_reservas_expiradas_eq, barrer_barrer_tabla.
  - intros ahora' nombre i b Hb [He Hlt]%expirado_true.
    destruct (reservar_boleto_exito ahora ahora' nombre t i b) as [m ->];
      [done | by rewrite barrer_expirado | done].
  - intros nombre i b Hb [He Hlt]%expirado_true.
    by destruct (comprar_boleto_exito nombre t i b) as [m ->].
Qed.

Lemma barrido_antes_de_listar_y_reservar_witness :
  let t := [mkBoleto 1 "S1" RESERVADO 30; mkBoleto 2 "S2" RESERVADO 5] in
  (reservar_boleto 31 31 "S1" t).2
  = [mkBoleto 1 "S1" RESERVADO 61; mkBoleto 2 "S2" DISPONIBLE 0] ∧
  (comprar_boleto "S1" t).2
  = [mkBoleto 1 "S1" VENDIDO 0; mkBoleto 2 "S2" RESERVADO 5].
Proof.
  intros t.
  destruct (barrido_antes_de_listar_y_reservar 31 t) as (_ & _ & Hr & Hc).
  split.
  - apply (Hr 31%Z "S1" 0 (mkBoleto 1 "S1" RESERVADO 30) eq_refl eq_refl).
  - apply (Hc "S1" 0 (mkBoleto 1 "S1" RESERVADO 30) eq_refl eq_refl).
Defined.

(** C7, as stated, fails: the reservation of one seat releases the
    expired hold of another. *)
Lemma reservar_barre_otros_counterexample :
  let t := [mkBoleto 1 "S1" DISPONIBLE 0; mkBoleto 2 "S2" RESERVADO 40] in
  t !! 1 = Some (mkBoleto 2 "S2" RESERVADO 40) ∧
  (reservar_boleto 41 41 "S1" t).2 !! 1 = Some (mkBoleto 2 "S2" DISPONIBLE 0) ∧
  (reservar_boleto 41 41 "S1" t).2 !! 1 ≠ t !! 1.
Proof. split_and!; [reflexivity | reflexivity | discriminate]. Qed.

(** C7, amended. The sweep run by the reservation covers the whole
    table: after [reservar_boleto] at sweep reading [ahora], a row with
    another label is what the sweep at [ahora] makes of it, DISPONIBLE
    with deadline 0 if it was RESERVADO with a deadline strictly before
    [ahora], and unchanged otherwise. *)
Theorem reservar_barre_toda_la_tabla (ahora ahora' : Z) nombre (t : Tabla) j b :
  t !! j = Some b →
  asiento b ≠ nombre →
  let t' := (reservar_boleto ahora ahora' nombre t).2 in
  t' !! j = Some (barrer ahora b) ∧
  (estado b = RESERVADO → (tiempo_limite b < ahora)%Z →
   t' !! j = Some (mkBoleto (id b) (asiento b) DISPONIBLE 0)) ∧
  (estado b ≠ RESERVADO ∨ (ahora ≤ tiempo_limite b)%Z → t' !! j = Some b).
Proof.
  intros Hj Hne t'.
  assert (t' !! j = Some (barrer ahora b)) as Ht'.
  { subst t'.
    assert ((barrer ahora <$> t) !! j = Some (barrer ahora b)) as Hbar
      by by rewrite list_lookup_fmap, Hj.
    destruct (buscar nombre t) as [[i b0]|] eqn:Hb.
    - destruct (buscar_lookup _ _ _ _ Hb) as [Hi Hnom].
      destruct (decide (estado (barrer ahora b0) = DISPONIBLE)) as [He|He].
      + destruct (reservar_boleto_exito ahora ahora' nombre t i b0)
          as [m ->]; [done..|]. cbn [snd].
        rewrite list_lookup_insert_ne; [done|].
        intros ->. rewrite Hi in Hj. injection Hj as <-. done.
      + by destruct (reservar_boleto_conflicto ahora ahora' nombre t i b0)
          as [m ->].
    - by rewrite reservar_boleto_no_encontrado. }
  split_and!; [done| |].
  - intros He Hlt. by rewrite Ht', barrer_expirado.
  - intros [He|Hle]; rewrite Ht'; f_equal.
    + by apply barrer_no_reservado.
    + by apply barrer_vigente.
Qed.

Lemma reservar_barre_toda_la_tabla_witness :
  let t := [mkBoleto 1 "S1" DISPONIBLE 0; mkBoleto 2 "S2" RESERVADO 40;
            mkBoleto 3 "S3" RESERVADO 41] in
  (reservar_boleto 41 41 "S1" t).2 !! 1 = Some (mkBoleto 2 "S2" DISPONIBLE 0) ∧
  (reservar_boleto 41 41 "S1" t).2 !! 2 = Some (mkBoleto 3 "S3" RESERVADO 41).
Proof.
  intros t. split.
  - apply (reservar_barre_toda_la_tabla 41 41 "S1" t 1
             (mkBoleto 2 "S2" RESERVADO 40) eq_refl);
      [discriminate | reflexivity | reflexivity].
  - apply (reservar_barre_toda_la_tabla 41 41 "S1" t 2
             (mkBoleto 3 "S3" RESERVADO 41) eq_refl);
      [discriminate | right; discriminate].
Defined.

(** ** 17. Labels *)

(** The theorems above name a seat through [buscar]: the row a label
    designates. Under the [unique] constraint of the column [asiento]
    every row of the table is designated by its own label; the constraint
    holds at start-up and no operation changes a label. *)

Lemma buscar_unico (t : Tabla) i b :
  NoDup (asiento <$> t) →
  t !! i = Some b →
  buscar (asiento b) t = Some (i, b).
Proof.
  intros Hnd Hi. apply list_find_Some. split_and!; [done..|].
  intros j y Hj Hlt Heq.
  assert (j = i); [|lia].
  apply (NoDup_lookup (asiento <$> t) j i (asiento b) Hnd).
  - by rewrite list_lookup_fmap, Hj, <-Heq.
  - by rewrite list_lookup_fmap, Hi.
Qed.

Lemma ejecutar_asientos op (t : Tabla) :
  asiento <$> ejecutar op t = asiento <$> t.
Proof.
  assert (∀ ahora, asiento <$> (barrer ahora <$> t) = asiento <$> t) as Hbar.
  { intros ahora. rewrite <-list_fmap_compose. apply list_fmap_ext.
    intros _ b _. apply barrer_asiento. }
  destruct op as [ahora|ahora ahora' nombre|nombre|ahora]; cbn [ejecutar].
  - rewrite get_boletos_eq. apply Hbar.
  - destruct (buscar nombre t) as [[i b]|] eqn:Hb.
    + destruct (buscar_lookup _ _ _ _ Hb) as [Hi _].
      destruct (decide (estado (barrer ahora b) = DISPONIBLE)) as [He|He].
      * destruct (reservar_boleto_exito ahora ahora' nombre t i b) as [m ->];
          [done..|]. cbn [snd].
        rewrite list_fmap_insert, Hbar. apply list_insert_id.
        by rewrite list_lookup_fmap, Hi.
      * destruct (reservar_boleto_conflicto ahora ahora' nombre t i b)
          as [m ->]; [done..|]. apply Hbar.
    + rewrite reservar_boleto_no_encontrado by done. apply Hbar.
  - destruct (buscar nombre t) as [[i b]|] eqn:Hb.
    + destruct (buscar_lookup _ _ _ _ Hb) as [Hi _].
      destruct (decide (estado b = RESERVADO)) as [He|He].
      * destruct (comprar_boleto_exito nombre t i b) as [m ->]; [done..|].
        cbn [snd]. rewrite list_fmap_insert. apply list_insert_id.
        by rewrite list_lookup_fmap, Hi.
      * by destruct (comprar_boleto_conflicto nombre t i b) as [m ->].
    + by rewrite comprar_boleto_no_encontrado.
  - rewrite liberar_reservas_expiradas_eq. apply Hbar.
Qed.

Lemma ejecutar_todas_asientos ops (t : Tabla) :
  asiento <$> ejecutar_todas ops t = asiento <$> t.
Proof.
  revert t. unfold ejecutar_todas.
  induction ops as [|op ops IH]; intros t; simpl; [done|].
  by rewrite IH, ejecutar_asientos.
Qed.

Lemma inventario_inicial_eq :
  inventario_inicial
  = (λ i : nat, mkBoleto (Z.of_nat i) ("A" +:+ pretty i) DISPONIBLE 0)
      <$> seq 1 200.
Proof. reflexivity. Qed.

Lemma inventario_inicial_unico : NoDup (asiento <$> inventario_inicial).
Proof.
  rewrite inventario_inicial_eq, <-list_fmap_compose.
  apply NoDup_fmap_2; [|apply NoDup_seq].
  intros n1 n2 Heq. simpl in Heq. injection Heq as Heq.
  change (pretty n1 = pretty n2) in Heq. by apply (inj pretty) in Heq.
Qed.

Lemma etiquetas_unicas ops : NoDup (asiento <$> ejecutar_todas ops inventario_inicial).
Proof. rewrite ejecutar_todas_asientos. apply inventario_inicial_unico. Qed.

(** ** 18. A run of the ledger *)

(** Three seats, hold of 30 seconds: reserve A1 at 0, buy it at 10,
    reserve A2 at 10, list at 41 (the hold on A2 has expired), reserve A2
    again at 41. *)
Example escenario :
  let t0 := take 3 inventario_inicial in
  let r1 := reservar_boleto 0 0 "A1" t0 in
  let r2 := comprar_boleto "A1" r1.2 in
  let r3 := reservar_boleto 10 10 "A2" r2.2 in
  let r4 := get_boletos 41 r3.2 in
  let r5 := reservar_boleto 41 41 "A2" r4.2 in
  codigo <$> [r1.1; r2.1; r3.1; r5.1] = [200; 200; 200; 200]%Z ∧
  r3.2 !! 1 = Some (mkBoleto 2 "A2" RESERVADO 40) ∧
  r4.1 = [mkBoletoDict 1 "A1" VENDIDO; mkBoletoDict 2 "A2" DISPONIBLE;
          mkBoletoDict 3 "A3" DISPONIBLE] ∧
  r5.2 = [mkBoleto 1 "A1" VENDIDO 0; mkBoleto 2 "A2" RESERVADO 71;
          mkBoleto 3 "A3" DISPONIBLE 0].
Proof. vm_compute. done. Qed.

(** ** 19. Start-up *)

(** X1. The start-up block seeds only an empty table: a table with rows
    is left as it is, so that running the block again after a first start
    neither resets nor duplicates the inventory; on the empty table it
    inserts 200 rows. *)
Theorem inicializar_una_vez (t : Tabla) :
  (t ≠ [] → (inicializar t).2 = t) ∧
  (t = [] → length (inicializar t).2 = 200) ∧
  (inicializar (inicializar t).2).2 = (inicializar t).2.
Proof.
  destruct t as [|b t].
  - split_and!; [done | reflexivity | reflexivity].
  - split_and!; [done | done | reflexivity].
Qed.

Lemma inicializar_una_vez_witness :
  let t := [mkBoleto 7 "B7" VENDIDO 0] in (inicializar t).2 = t.
Proof. intros t. apply (proj1 (inicializar_una_vez t)). discriminate. Defined.

(** X2. The inventory of a first start meets the constraints of the
    table: 200 rows, row [i] (from 0) with key [i+1] and label "A[i+1]",
    labels pairwise distinct (the [unique] constraint), keys pairwise
    distinct (the primary key), every label within the 10 characters of
    the column, every row DISPONIBLE with deadline 0. *)
Theorem inventario_inicial_esquema :
  length inventario_inicial = 200 ∧
  NoDup (asiento <$> inventario_inicial) ∧
  NoDup (id <$> inventario_inicial) ∧
  Forall (λ b, String.length (asiento b) ≤ 10 ∧
               estado b = DISPONIBLE ∧ tiempo_limite b = 0%Z)
         inventario_inicial ∧
  (∀ i, i < 200 →
     inventario_inicial !! i
     = Some (mkBoleto (Z.of_nat (S i)) ("A" +:+ pretty (S i)) DISPONIBLE 0)).
Proof.
  split_and!.
  - reflexivity.
  - apply inventario_inicial_unico.
  - rewrite inventario_inicial_eq, <-list_fmap_compose.
    apply NoDup_fmap_2; [|apply NoDup_seq].
    intros n1 n2 Heq. simpl in Heq. lia.
  - apply (bool_decide_unpack _). vm_compute. exact I.
  - intros i Hi. rewrite inventario_inicial_eq, list_lookup_fmap.
    by rewrite lookup_seq_lt.
Qed.

Lemma inventario_inicial_esquema_witness :
  inventario_inicial !! 36 = Some (mkBoleto 37 "A37" DISPONIBLE 0).
Proof.
  apply (proj2 (proj2 (proj2 (proj2 inventario_inicial_esquema))) 36). lia.
Defined.

(** ** 20. More on the sweep *)

Lemma barrer_barrer_max a1 a2 b :
  barrer a2 (barrer a1 b) = barrer (a1 `max` a2)%Z b.
Proof.
  destruct (decide (estado b = RESERVADO)) as [He|He].
  - destruct (decide (tiempo_limite b < a1)%Z) as [H1|H1].
    + rewrite (barrer_expirado a1), (barrer_expirado (a1 `max` a2)%Z)
        by (done || lia).
      by apply barrer_no_reservado.
    + rewrite (barrer_vigente a1) by lia.
      destruct (decide (tiempo_limite b < a2)%Z) as [H2|H2].
      * by rewrite !barrer_expirado by (done || lia).
      * by rewrite !barrer_vigente by lia.
  - by rewrite (barrer_no_reservado a1 b), (barrer_no_reservado a2 b),
       (barrer_no_reservado (a1 `max` a2)%Z b).
Qed.

(** X3. Two sweeps in a row amount to one sweep at the later of the two
    readings; hence sweeps commute, and a sweep after a later one changes
    nothing. *)
Theorem barridos_componen (a1 a2 : Z) (t : Tabla) :
  liberar_reservas_expiradas a2 (liberar_reservas_expiradas a1 t).2
  = liberar_reservas_expiradas (a1 `max` a2)%Z t ∧
  liberar_reservas_expiradas a2 (liberar_reservas_expiradas a1 t).2
  = liberar_reservas_expiradas a1 (liberar_reservas_expiradas a2 t).2.
Proof.
  rewrite !liberar_reservas_expiradas_eq. cbn [snd].
  rewrite <-!list_fmap_compose. split; f_equal.
  - apply list_fmap_ext. intros _ b _. apply barrer_barrer_max.
  - apply list_fmap_ext. intros _ b _. simpl.
    by rewrite !barrer_barrer_max, Z.max_comm.
Qed.

(** X4. The sweep changes the table exactly when its query selects some
    row (the case in which the source commits); it never changes the
    number of rows. *)
Theorem barrido_sin_expirados (ahora : Z) (t : Tabla) :
  ((liberar_reservas_expiradas ahora t).2 = t ↔ boletos_expirados ahora t = []) ∧
  length (liberar_reservas_expiradas ahora t).2 = length t.
Proof.
  rewrite liberar_reservas_expiradas_eq. cbn [snd]. split; [|by rewrite length_fmap].
  split.
  - intros Heq. apply elem_of_nil_inv. intros [i b] Hin.
    apply boletos_expirados_elem_of in Hin as [Hi Hex].
    assert ((barrer ahora <$> t) !! i = Some b) as Hi' by by rewrite Heq.
    rewrite list_lookup_fmap, Hi in Hi'. simpl in Hi'. injection Hi' as Hb.
    unfold barrer in Hb. rewrite Hex in Hb.
    apply expirado_true in Hex as [He _].
    apply (f_equal estado) in Hb. simpl in Hb. congruence.
  - intros Hnil. rewrite <-(list_fmap_id t) at 2.
    apply list_fmap_ext. intros i b Hi. simpl. unfold barrer.
    destruct (expirado ahora b) eqn:Hex; [|done].
    assert ((i, b) ∈ boletos_expirados ahora t) as Hin
      by by apply boletos_expirados_elem_of.
    rewrite Hnil in Hin. by apply elem_of_nil in Hin.
Qed.

(** ** 21. Rows under one operation *)

Lemma barrer_transicion op ahora b :
  (∀ nombre, op ≠ OpComprar nombre) →
  transicion op (estado b) (estado (barrer ahora b)) = true.
Proof.
  intros Hop. unfold barrer.
  destruct (expirado ahora b) eqn:Hex.
  - apply expirado_true in Hex as [-> _]. simpl. destruct op; try done.
    by destruct (Hop asiento_nombre).
  - by destruct (estado b).
Qed.

(** What one operation makes of the row at one position. *)
Lemma ejecutar_fila op (t : Tabla) i b :
  t !! i = Some b →
  ∃ b', ejecutar op t !! i = Some b' ∧ id b' = id b ∧ asiento b' = asiento b ∧
        transicion op (estado b) (estado b') = true.
Proof.
  intros Hi.
  assert (∀ ahora, (barrer ahora <$> t) !! i = Some (barrer ahora b)) as Hbar
    by (intros; by rewrite list_lookup_fmap, Hi).
  assert (∀ e, transicion op e e = true) as Hrefl by (by intros []).
  destruct op as [ahora|ahora ahora' nombre|nombre|ahora]; cbn [ejecutar].
  - rewrite get_boletos_eq. exists (barrer ahora b).
    split_and!; [apply Hbar|apply barrer_id|apply barrer_asiento|].
    by apply barrer_transicion.
  - destruct (buscar nombre t) as [[j b0]|] eqn:Hb.
    + destruct (buscar_lookup _ _ _ _ Hb) as [Hj _].
      destruct (decide (estado (barrer ahora b0) = DISPONIBLE)) as [He|He].
      * destruct (reservar_boleto_exito ahora ahora' nombre t j b0) as [m ->];
          [done..|]. cbn [snd].
        destruct (decide (j = i)) as [->|Hne].
        -- rewrite Hi in Hj. injection Hj as <-.
           exists (reservado b (ahora' + RESERVA_DURACION_SEGUNDOS)).
           rewrite list_lookup_insert_eq
             by (rewrite length_fmap; eauto using lookup_lt_Some).
           split_and!; [done..|]. simpl.
           destruct (estado b) eqn:Hest; [done|done|].
           rewrite barrer_no_reservado in He by congruence. congruence.
        -- rewrite list_lookup_insert_ne by done. exists (barrer ahora b).
           split_and!; [apply Hbar|apply barrer_id|apply barrer_asiento|].
           by apply barrer_transicion.
      * destruct (reservar_boleto_conflicto ahora ahora' nombre t j b0)
          as [m ->]; [done..|]. exists (barrer ahora b).
        split_and!; [apply Hbar|apply barrer_id|apply barrer_asiento|].
        by apply barrer_transicion.
    + rewrite reservar_boleto_no_encontrado by done. exists (barrer ahora b).
      split_and!; [apply Hbar|apply barrer_id|apply barrer_asiento|].
      by apply barrer_transicion.
  - destruct (buscar nombre t) as [[j b0]|] eqn:Hb.
    + destruct (buscar_lookup _ _ _ _ Hb) as [Hj _].
      destruct (decide (estado b0 = RESERVADO)) as [He|He].
      * destruct (comprar_boleto_exito nombre t j b0) as [m ->]; [done..|].
        cbn [snd]. destruct (decide (j = i)) as [->|Hne].
        -- rewrite Hi in Hj. injection Hj as <-. exists (vendido b).
           rewrite list_lookup_insert_eq by eauto using lookup_lt_Some.
           split_and!; [done..|]. simpl. by rewrite He.
        -- rewrite list_lookup_insert_ne by done. by exists b.
      * destruct (comprar_boleto_conflicto nombre t j b0) as [m ->]; [done..|].
        by exists b.
    + rewrite comprar_boleto_no_encontrado by done. by exists b.
  - rewrite liberar_reservas_expiradas_eq. exists (barrer ahora b).
    split_and!; [apply Hbar|apply barrer_id|apply barrer_asiento|].
    by apply barrer_transicion.
Qed.

(** X5. Under one operation every row keeps its position, key and
    label, and its status changes only along the state machine: a sweep,
    a listing or a reservation may release a hold (RESERVADO to
    DISPONIBLE), only a reservation reserves (DISPONIBLE to RESERVADO),
    only a purchase sells, and only from RESERVADO; no operation takes a
    row out of VENDIDO or from DISPONIBLE to VENDIDO. *)
Theorem transiciones_de_una_fila op (t : Tabla) i b :
  t !! i = Some b →
  ∃ b', ejecutar op t !! i = Some b' ∧ id b' = id b ∧ asiento b' = asiento b ∧
        transicion op (estado b) (estado b') = true ∧
        (estado b = VENDIDO → estado b' = VENDIDO) ∧
        (estado b' = VENDIDO → estado b = VENDIDO ∨
           estado b = RESERVADO ∧ ∃ nombre, op = OpComprar nombre).
Proof.
  intros Hi. destruct (ejecutar_fila op t i b Hi) as (b' & Hi' & Hid & Has & Htr).
  exists b'. split_and!; [done..| |].
  - intros He. rewrite He in Htr. by destruct (estado b').
  - intros He. rewrite He in Htr.
    destruct (estado b); [done| |by left].
    right. split; [done|]. destruct op; try done. by eexists.
Qed.

Lemma transiciones_de_una_fila_witness :
  let t := [mkBoleto 1 "S1" RESERVADO 30; mkBoleto 2 "S2" DISPONIBLE 0] in
  ∃ b', ejecutar (OpComprar "S2") t !! 1 = Some b' ∧ estado b' ≠ VENDIDO.
Proof.
  intros t.
  destruct (transiciones_de_una_fila (OpComprar "S2") t 1
              (mkBoleto 2 "S2" DISPONIBLE 0) eq_refl)
    as (b' & Hb' & _ & _ & _ & _ & Hv).
  exists b'. split; [exact Hb'|].
  intros He. destruct (Hv He) as [?|[? _]]; discriminate.
Defined.

Lemma ejecutar_length op (t : Tabla) : length (ejecutar op t) = length t.
Proof.
  rewrite <-(length_fmap asiento (ejecutar op t)), ejecutar_asientos.
  apply length_fmap.
Qed.

Lemma ejecutar_ids op (t : Tabla) : id <$> ejecutar op t = id <$> t.
Proof.
  apply list_eq. intros i. rewrite !list_lookup_fmap.
  destruct (t !! i) as [b|] eqn:Hi.
  - destruct (ejecutar_fila op t i b Hi) as (b' & -> & Hid & _). simpl.
    by rewrite Hid.
  - rewrite (lookup_ge_None_2 (ejecutar op t) i); [done|].
    rewrite ejecutar_length. by apply lookup_ge_None.
Qed.

(** X6. No sequence of operations adds, removes, reorders, renames or
    renumbers seats: the table keeps its length, and its columns of keys
    and of labels, in order. *)
Theorem ejecutar_todas_conserva_filas ops (t : Tabla) :
  length (ejecutar_todas ops t) = length t ∧
  id <$> ejecutar_todas ops t = id <$> t ∧
  asiento <$> ejecutar_todas ops t = asiento <$> t.
Proof.
  revert t. unfold ejecutar_todas.
  induction ops as [|op ops IH]; intros t; simpl; [done|].
  destruct (IH (ejecutar op t)) as (-> & -> & ->).
  by rewrite ejecutar_length, ejecutar_ids, ejecutar_asientos.
Qed.

(** ** 22. Lazy expiry *)

Lemma barrer_previo a0 ahora (t : Tabla) :
  (a0 ≤ ahora)%Z → barrer ahora <$> (barrer a0 <$> t) = barrer ahora <$> t.
Proof.
  intros Hle. rewrite <-list_fmap_compose. apply list_fmap_ext.
  intros _ b _. simpl. rewrite barrer_barrer_max. f_equal. lia.
Qed.

Lemma reservar_boleto_barrido ahora ahora' nombre (t1 t2 : Tabla) :
  barrer ahora <$> t1 = barrer ahora <$> t2 →
  reservar_boleto ahora ahora' nombre t1 = reservar_boleto ahora ahora' nombre t2.
Proof.
  intros Heq. unfold reservar_boleto, mbind, Sesion_bind.
  by rewrite !liberar_reservas_expiradas_eq, Heq.
Qed.

(** X7. Expiry is lazy without loss: sweeps and listings made earlier,
    at readings up to [ahora], change neither the answer nor the
    resulting table of a listing or of a reservation whose sweep reads
    [ahora]. *)
Theorem barridos_previos_sin_efecto ops (ahora : Z) (t : Tabla) :
  Forall (solo_barrido_hasta ahora) ops →
  get_boletos ahora (ejecutar_todas ops t) = get_boletos ahora t ∧
  ∀ ahora' nombre,
    reservar_boleto ahora ahora' nombre (ejecutar_todas ops t)
    = reservar_boleto ahora ahora' nombre t.
Proof.
  intros Hops.
  assert (barrer ahora <$> ejecutar_todas ops t = barrer ahora <$> t) as Heq.
  { revert t. unfold ejecutar_todas.
    induction Hops as [|op ops Hop _ IH]; intros t; simpl; [done|].
    rewrite IH.
    destruct op as [a0|? ? ?|?|a0]; cbn [ejecutar solo_barrido_hasta] in *;
      try done.
    - rewrite get_boletos_eq. by apply barrer_previo.
    - rewrite liberar_reservas_expiradas_eq. by apply barrer_previo. }
  split.
  - by rewrite !get_boletos_eq, Heq.
  - intros ahora' nombre. by apply reservar_boleto_barrido.
Qed.

Lemma barridos_previos_sin_efecto_witness :
  let t := [mkBoleto 1 "S1" RESERVADO 30; mkBoleto 2 "S2" RESERVADO 35] in
  reservar_boleto 40 40 "S1" (ejecutar_todas [OpListar 33; OpLiberar 40] t)
  = reservar_boleto 40 40 "S1" t.
Proof.
  intros t.
  apply (proj2 (barridos_previos_sin_efecto [OpListar 33; OpLiberar 40] 40 t
                  ltac:(repeat constructor; simpl; lia))).
Defined.

(** ** 23. The answers of the endpoints *)

(** X8. The answer of a reservation, decided on the table before the
    call: 404 exactly when no row carries the label; 200 exactly when the
    row is DISPONIBLE, or RESERVADO with a deadline strictly before the
    sweep reading (an expired hold is bookable again); 409 exactly when
    the row is VENDIDO, or RESERVADO with a deadline not before the
    reading (at the deadline itself the hold still stands). *)
Theorem reservar_boleto_codigo (ahora ahora' : Z) nombre (t : Tabla) :
  let r := reservar_boleto ahora ahora' nombre t in
  (codigo r.1 = 404%Z ↔ buscar nombre t = None) ∧
  (codigo r.1 = 200%Z ↔
     ∃ i b, buscar nombre t = Some (i, b) ∧
       (estado b = DISPONIBLE ∨
        estado b = RESERVADO ∧ (tiempo_limite b < ahora)%Z)) ∧
  (codigo r.1 = 409%Z ↔
     ∃ i b, buscar nombre t = Some (i, b) ∧
       (estado b = VENDIDO ∨
        estado b = RESERVADO ∧ (ahora ≤ tiempo_limite b)%Z)).
Proof.
  intros r. subst r.
  destruct (buscar nombre t) as [[i b]|] eqn:Hb.
  - assert (estado (barrer ahora b) = DISPONIBLE ↔
            estado b = DISPONIBLE ∨
            estado b = RESERVADO ∧ (tiempo_limite b < ahora)%Z) as Hdisp.
    { unfold barrer. destruct (expirado ahora b) eqn:Hex.
      - apply expirado_true in Hex. simpl. split; [by right | done].
      - apply not_true_iff_false in Hex. rewrite expirado_true in Hex.
        split; [by left | by intros [?|?]]. }
    destruct (decide (estado (barrer ahora b) = DISPONIBLE)) as [He|He].
    + destruct (reservar_boleto_exito ahora ahora' nombre t i b) as [m ->];
        [done..|]. cbn [fst codigo]. apply Hdisp in He.
      split_and!; split; try done.
      * intros _. by exists i, b.
      * intros (i' & b' & [= <- <-] & Hcase). destruct He as [He|[He ?]];
          destruct Hcase as [?|[? ?]]; first [congruence | lia].
    + destruct (reservar_boleto_conflicto ahora ahora' nombre t i b)
        as [m ->]; [done..|]. cbn [fst codigo].
      rewrite Hdisp in He.
      split_and!; split; try done.
      * intros (i' & b' & [= <- <-] & Hcase). done.
      * intros _. exists i, b. split; [done|].
        destruct (estado b) eqn:Hest; [by destruct He; left| |by left].
        right. split; [done|].
        destruct (decide (ahora ≤ tiempo_limite b)%Z); [done|].
        exfalso. apply He. right. split; [done | lia].
  - rewrite reservar_boleto_no_encontrado by done. cbn [fst codigo].
    split_and!; split; try done; by intros (? & ? & ? & _).
Qed.

(** X9. Whenever a reservation or a purchase answers with a status, it
    is the status the row of that label holds once the call is over; the
    answer carries no status exactly when it is 404. A conflict of a
    reservation never reports DISPONIBLE, and a conflict of a purchase
    never reports RESERVADO. *)
Theorem estado_respondido_es_el_guardado (ahora ahora' : Z) nombre (t : Tabla) :
  let r := reservar_boleto ahora ahora' nombre t in
  let c := comprar_boleto nombre t in
  (∀ e, estado_json r.1 = Some e →
     ∃ i b, buscar nombre r.2 = Some (i, b) ∧ estado b = e) ∧
  (∀ e, estado_json c.1 = Some e →
     ∃ i b, buscar nombre c.2 = Some (i, b) ∧ estado b = e) ∧
  (estado_json r.1 = None ↔ codigo r.1 = 404%Z) ∧
  (estado_json c.1 = None ↔ codigo c.1 = 404%Z) ∧
  (codigo r.1 = 409%Z → estado_json r.1 ≠ Some DISPONIBLE) ∧
  (codigo c.1 = 409%Z → estado_json c.1 ≠ Some RESERVADO).
Proof.
  intros r c. subst r c.
  destruct (buscar nombre t) as [[i b]|] eqn:Hb.
  - destruct (buscar_lookup _ _ _ _ Hb) as [Hi Hnom].
    assert (∃ m tr, reservar_boleto ahora ahora' nombre t
              = ({| codigo := 200; message := m;
                    estado_json := Some RESERVADO |}, tr) ∧
              buscar nombre tr
              = Some (i, reservado b (ahora' + RESERVA_DURACION_SEGUNDOS))
            ∨ reservar_boleto ahora ahora' nombre t
              = ({| codigo := 409; message := m;
                    estado_json := Some (estado (barrer ahora b)) |}, tr) ∧
              buscar nombre tr = Some (i, barrer ahora b) ∧
              estado (barrer ahora b) ≠ DISPONIBLE) as (mr & tr & Hr).
    { destruct (decide (estado (barrer ahora b) = DISPONIBLE)) as [He|He].
      - destruct (reservar_boleto_exito ahora ahora' nombre t i b) as [m Hr];
          [done..|]. do 2 eexists. left. split; [exact Hr|].
        erewrite (buscar_insert nombre _ i (barrer ahora b) i (barrer ahora b));
          [by rewrite decide_True | by apply buscar_barrer_Some
          | by rewrite list_lookup_fmap, Hi | by rewrite barrer_asiento].
      - destruct (reservar_boleto_conflicto ahora ahora' nombre t i b)
          as [m Hr]; [done..|]. do 2 eexists. right. split; [exact Hr|].
        split; [by apply buscar_barrer_Some | done]. }
    assert (∃ m tc, comprar_boleto nombre t
              = ({| codigo := 200; message := m;
                    estado_json := Some VENDIDO |}, tc) ∧
              buscar nombre tc = Some (i, vendido b)
            ∨ comprar_boleto nombre t
              = ({| codigo := 409; message := m;
                    estado_json := Some (estado b) |}, tc) ∧
              buscar nombre tc = Some (i, b) ∧
              estado b ≠ RESERVADO) as (mc & tc & Hc).
    { destruct (decide (estado b = RESERVADO)) as [He|He].
      - destruct (comprar_boleto_exito nombre t i b) as [m Hc]; [done..|].
        do 2 eexists. left. split; [exact Hc|].
        erewrite (buscar_insert nombre t i b i b); [|done..].
        by rewrite decide_True.
      - destruct (comprar_boleto_conflicto nombre t i b) as [m Hc]; [done..|].
        do 2 eexists. right. split; [exact Hc|]. done. }
    destruct Hr as [[-> Hr]|(-> & Hr & Her)];
      destruct Hc as [[-> Hc]|(-> & Hc & Hec)]; cbn [fst snd codigo estado_json];
      (split_and!;
       [ intros e [= <-]; eauto | intros e [= <-]; eauto
       | split; intros; discriminate | split; intros; discriminate
       | try done; intros _; congruence | try done; intros _; congruence ]).
  - rewrite reservar_boleto_no_encontrado, comprar_boleto_no_encontrado by done.
    cbn [fst snd codigo estado_json]. split_and!; try done.
Qed.

Lemma estado_respondido_es_el_guardado_witness :
  let t := [mkBoleto 1 "S1" RESERVADO 30] in
  ∃ i b, buscar "S1" (reservar_boleto 20 20 "S1" t).2 = Some (i, b) ∧
         estado b = RESERVADO.
Proof.
  intros t.
  apply (proj1 (estado_respondido_es_el_guardado 20 20 "S1" t) RESERVADO).
  reflexivity.
Defined.

(** ** 24. A hold among other operations *)

(** One operation whose sweep does not read past the deadline leaves a
    hold in place, or sells it. *)
Lemma ejecutar_reserva_vigente op nombre (t : Tabla) i b :
  buscar nombre t = Some (i, b) →
  estado b = RESERVADO →
  barrido_hasta (tiempo_limite b) op →
  buscar nombre (ejecutar op t) = Some (i, b) ∨
  buscar nombre (ejecutar op t) = Some (i, vendido b).
Proof.
  intros Hb He Hop.
  destruct (buscar_lookup _ _ _ _ Hb) as [Hi _].
  assert (∀ ahora, (ahora ≤ tiempo_limite b)%Z →
            buscar nombre (barrer ahora <$> t) = Some (i, b)) as Hbar.
  { intros ahora Hle. by rewrite (buscar_barrer_Some _ _ _ i b), barrer_vigente. }
  destruct op as [ahora|ahora ahora' nombre'|nombre'|ahora];
    cbn [ejecutar barrido_hasta] in *.
  - left. rewrite get_boletos_eq. by apply Hbar.
  - left. destruct (buscar nombre' t) as [[j b0]|] eqn:Hb0.
    + destruct (buscar_lookup _ _ _ _ Hb0) as [Hj _].
      destruct (decide (estado (barrer ahora b0) = DISPONIBLE)) as [Hd|Hd].
      * destruct (reservar_boleto_exito ahora ahora' nombre' t j b0)
          as [m ->]; [done..|]. cbn [snd].
        erewrite (buscar_insert nombre _ i b j (barrer ahora b0));
          [|by apply Hbar|by rewrite list_lookup_fmap, Hj
           |by rewrite barrer_asiento].
        case_decide as Hji; [|done]. subst j.
        rewrite Hi in Hj. injection Hj as <-.
        rewrite barrer_vigente in Hd by done. congruence.
      * destruct (reservar_boleto_conflicto ahora ahora' nombre' t j b0)
          as [m ->]; [done..|]. by apply Hbar.
    + rewrite reservar_boleto_no_encontrado by done. by apply Hbar.
  - destruct (buscar nombre' t) as [[j b0]|] eqn:Hb0.
    + destruct (buscar_lookup _ _ _ _ Hb0) as [Hj _].
      destruct (decide (estado b0 = RESERVADO)) as [Hd|Hd].
      * destruct (comprar_boleto_exito nombre' t j b0) as [m ->]; [done..|].
        cbn [snd].
        erewrite (buscar_insert nombre t i b j b0); [|done..].
        case_decide as Hji; [|by left]. subst j.
        rewrite Hi in Hj. injection Hj as <-. by right.
      * left. by destruct (comprar_boleto_conflicto nombre' t j b0) as [m ->].
    + left. by rewrite comprar_boleto_no_encontrado.
  - left. rewrite liberar_reservas_expiradas_eq. by apply Hbar.
Qed.

(** X10. A hold excludes every other until its deadline, whatever is
    interleaved: after any sequence of operations whose sweeps read no
    later than the deadline, the label still designates the same row,
    held as it was or sold to the holder, and a reservation of it whose
    sweep reads no later than the deadline answers 409. *)
Theorem reserva_exclusiva_hasta_el_limite ops nombre (t : Tabla) i b :
  buscar nombre t = Some (i, b) →
  estado b = RESERVADO →
  Forall (barrido_hasta (tiempo_limite b)) ops →
  let t' := ejecutar_todas ops t in
  (buscar nombre t' = Some (i, b) ∨ buscar nombre t' = Some (i, vendido b)) ∧
  ∀ ahora ahora', (ahora ≤ tiempo_limite b)%Z →
    codigo (reservar_boleto ahora ahora' nombre t').1 = 409%Z.
Proof.
  intros Hb He Hops t'.
  assert (buscar nombre t' = Some (i, b) ∨ buscar nombre t' = Some (i, vendido b))
    as Hfin.
  { subst t'. revert t Hb. unfold ejecutar_todas.
    induction Hops as [|op ops Hop _ IH]; intros t Hb; simpl; [by left|].
    destruct (ejecutar_reserva_vigente op nombre t i b) as [H1|H1]; [done..| |].
    - by apply IH.
    - right. by apply (ejecutar_todas_vendido ops). }
  split; [done|]. intros ahora ahora' Hle.
  destruct Hfin as [Hfin|Hfin].
  - destruct (reservar_boleto_conflicto ahora ahora' nombre t' i b) as [m ->];
      [done | by rewrite barrer_vigente, He | done].
  - by destruct (reservar_boleto_conflicto ahora ahora' nombre t' i (vendido b))
      as [m ->].
Qed.

Lemma reserva_exclusiva_hasta_el_limite_witness :
  let t := [mkBoleto 1 "S1" RESERVADO 30; mkBoleto 2 "S2" DISPONIBLE 0] in
  let ops := [OpListar 12; OpReservar 20 20 "S2"; OpComprar "S2";
              OpReservar 30 30 "S1"] in
  codigo (reservar_boleto 30 30 "S1" (ejecutar_todas ops t)).1 = 409%Z.
Proof.
  intros t ops.
  apply (reserva_exclusiva_hasta_el_limite ops "S1" t 0
           (mkBoleto 1 "S1" RESERVADO 30) eq_refl eq_refl).
  - subst ops. repeat apply Forall_cons_2; try apply Forall_nil_2; simpl;
      first [lia | exact I].
  - simpl. lia.
Defined.

Lemma ejecutar_plazos op (t : Tabla) (M : Z) :
  (0 ≤ M)%Z →
  plazo_hasta (M - RESERVA_DURACION_SEGUNDOS) op →
  Forall (λ b, (tiempo_limite b ≤ M)%Z) t →
  Forall (λ b, (tiempo_limite b ≤ M)%Z) (ejecutar op t).
Proof.
  intros HM Hop Ht.
  assert (∀ ahora, Forall (λ b, (tiempo_limite b ≤ M)%Z) (barrer ahora <$> t))
    as Hbar.
  { intros ahora. apply Forall_fmap. eapply Forall_impl; [exact Ht|].
    intros b Hb. simpl. unfold barrer. by destruct (expirado ahora b). }
  destruct op as [ahora|ahora ahora' nombre|nombre|ahora];
    cbn [ejecutar plazo_hasta] in *.
  - rewrite get_boletos_eq. apply Hbar.
  - destruct (buscar nombre t) as [[i b]|] eqn:Hb.
    + destruct (decide (estado (barrer ahora b) = DISPONIBLE)) as [He|He].
      * destruct (reservar_boleto_exito ahora ahora' nombre t i b) as [m ->];
          [done..|]. cbn [snd].
        apply Forall_insert; [apply Hbar|]. simpl. lia.
      * destruct (reservar_boleto_conflicto ahora ahora' nombre t i b)
          as [m ->]; [done..|]. apply Hbar.
    + rewrite reservar_boleto_no_encontrado by done. apply Hbar.
  - destruct (buscar nombre t) as [[i b]|] eqn:Hb.
    + destruct (decide (estado b = RESERVADO)) as [He|He].
      * destruct (comprar_boleto_exito nombre t i b) as [m ->]; [done..|].
        cbn [snd]. by apply Forall_insert.
      * by destruct (comprar_boleto_conflicto nombre t i b) as [m ->].
    + by rewrite comprar_boleto_no_encontrado.
  - rewrite liberar_reservas_expiradas_eq. apply Hbar.
Qed.

(** X11. Every hold lapses. If the readings that fixed the deadlines
    of a run from the initial inventory are at most [N], no deadline of
    the table exceeds [N + 30], and a listing at any time after [N + 30]
    shows no seat as RESERVADO. *)
Theorem toda_reserva_caduca ops (N : Z) :
  (0 ≤ N)%Z →
  Forall (plazo_hasta N) ops →
  let t' := ejecutar_todas ops inventario_inicial in
  (∀ b, b ∈ t' → (tiempo_limite b ≤ N + RESERVA_DURACION_SEGUNDOS)%Z) ∧
  ∀ ahora d, (N + RESERVA_DURACION_SEGUNDOS < ahora)%Z →
    d ∈ (get_boletos ahora t').1 → dict_estado d ≠ RESERVADO.
Proof.
  intros HN Hops t'.
  assert (Forall (λ b, (tiempo_limite b ≤ N + RESERVA_DURACION_SEGUNDOS)%Z) t')
    as Hall.
  { subst t'.
    assert (Forall (λ b, (tiempo_limite b ≤ N + RESERVA_DURACION_SEGUNDOS)%Z)
              inventario_inicial) as H0.
    { rewrite inventario_inicial_eq. apply Forall_fmap, Forall_forall.
      intros n _. simpl. unfold RESERVA_DURACION_SEGUNDOS. lia. }
    revert H0. generalize inventario_inicial. unfold ejecutar_todas.
    induction Hops as [|op ops Hop _ IH]; intros t Ht; simpl; [done|].
    apply IH, ejecutar_plazos; [unfold RESERVA_DURACION_SEGUNDOS; lia| |done].
    by replace (N + RESERVA_DURACION_SEGUNDOS - RESERVA_DURACION_SEGUNDOS)%Z
      with N by lia. }
  split; [by apply Forall_forall|].
  intros ahora d Hlt. rewrite get_boletos_eq. cbn [fst].
  intros (b' & -> & (b & -> & Hb)%list_elem_of_fmap)%list_elem_of_fmap.
  rewrite Forall_forall in Hall. specialize (Hall b Hb). simpl.
  destruct (decide (estado b = RESERVADO)) as [He|He].
  - by rewrite barrer_expirado by (done || lia).
  - by rewrite barrer_no_reservado.
Qed.

Lemma toda_reserva_caduca_witness :
  let ops := [OpReservar 0 0 "A1"; OpReservar 10 10 "A2"; OpComprar "A1"] in
  Forall (λ d, dict_estado d ≠ RESERVADO)
         (get_boletos 41 (ejecutar_todas ops inventario_inicial)).1.
Proof.
  intros ops. apply Forall_forall. intros d.
  apply (proj2 (toda_reserva_caduca ops 10 ltac:(lia)
                  ltac:(subst ops; repeat apply Forall_cons_2;
                        try apply Forall_nil_2; simpl; first [lia | exact I]))
           41%Z d).
  reflexivity.
Defined.

(** ** 25. The listing *)

(** X12. The listing returns one snapshot per row, in table order, with
    the key and the label of the row; a seat is shown VENDIDO exactly
    when it was VENDIDO, and DISPONIBLE exactly when it was DISPONIBLE or
    held with a deadline strictly before [ahora]; listing again at the
    same reading returns the same snapshots and changes nothing. *)
Theorem get_boletos_forma (ahora : Z) (t : Tabla) :
  let g := get_boletos ahora t in
  length g.1 = length t ∧
  dict_id <$> g.1 = id <$> t ∧
  dict_asiento <$> g.1 = asiento <$> t ∧
  (∀ i b, t !! i = Some b →
     ∃ d, g.1 !! i = Some d ∧
       (dict_estado d = VENDIDO ↔ estado b = VENDIDO) ∧
       (dict_estado d = DISPONIBLE ↔
          estado b = DISPONIBLE ∨
          estado b = RESERVADO ∧ (tiempo_limite b < ahora)%Z)) ∧
  get_boletos ahora g.2 = g.
Proof.
  intros g. subst g. rewrite !get_boletos_eq. cbn [fst snd].
  split_and!.
  - by rewrite !length_fmap.
  - rewrite <-!list_fmap_compose. apply list_fmap_ext. intros _ b _. simpl.
    apply barrer_id.
  - rewrite <-!list_fmap_compose. apply list_fmap_ext. intros _ b _. simpl.
    apply barrer_asiento.
  - intros i b Hi. exists (to_dict (barrer ahora b)).
    rewrite !list_lookup_fmap, Hi. split; [done|]. simpl. unfold barrer.
    destruct (expirado ahora b) eqn:Hex.
    + apply expirado_true in Hex as [He Hlt]. simpl. rewrite He.
      split; split; try done. intros _. by right.
    + apply not_true_iff_false in Hex. rewrite expirado_true in Hex.
      split; [done|]. split; [by left | by intros [?|?]].
  - by rewrite barrer_barrer_tabla.
Qed.

Lemma get_boletos_forma_witness :
  let t := [mkBoleto 1 "S1" VENDIDO 0; mkBoleto 2 "S2" RESERVADO 40] in
  ∃ d, (get_boletos 41 t).1 !! 1 = Some d ∧ dict_estado d = DISPONIBLE.
Proof.
  intros t.
  destruct (proj1 (proj2 (proj2 (proj2 (get_boletos_forma 41 t))))
              1 (mkBoleto 2 "S2" RESERVADO 40) eq_refl)
    as (d & Hd & _ & Hdisp).
  exists d. split; [exact Hd|]. apply Hdisp. right. split; [reflexivity|].
  reflexivity.
Defined.

(** ** 26. Purchases of different seats *)

Lemma comprar_boleto_segun_busqueda nombre (t t' : Tabla) :
  buscar nombre t' = buscar nombre t →
  (comprar_boleto nombre t').1 = (comprar_boleto nombre t).1 ∧
  (comprar_boleto nombre t').2
  = match buscar nombre t with
    | Some (i, b) =>
        if decide (estado b = RESERVADO) then <[i := vendido b]> t' else t'
    | None => t'
    end.
Proof.
  intros Heq.
  unfold comprar_boleto, mbind, Sesion_bind, query_filter_by_asiento.
  rewrite Heq. destruct (buscar nombre t) as [[i b]|]; [|done].
  by destruct (decide (estado b = RESERVADO)).
Qed.

(** A purchase moves no lookup of another label. *)
Lemma buscar_tras_comprar n1 n2 (t : Tabla) :
  n1 ≠ n2 → buscar n2 (comprar_boleto n1 t).2 = buscar n2 t.
Proof.
  intros Hne.
  destruct (comprar_boleto_segun_busqueda n1 t t eq_refl) as [_ ->].
  destruct (buscar n1 t) as [[i1 b1]|] eqn:H1; [|done].
  destruct (decide (estado b1 = RESERVADO)); [|done].
  destruct (buscar_lookup _ _ _ _ H1) as [Hi1 Hn1].
  destruct (buscar n2 t) as [[i2 b2]|] eqn:H2.
  - destruct (buscar_lookup _ _ _ _ H2) as [Hi2 Hn2].
    erewrite (buscar_insert n2 t i2 b2 i1 b1); [|done..].
    case_decide as Heq; [|done]. subst i2. congruence.
  - apply list_find_None. apply list_find_None in H2.
    apply Forall_insert; [done|]. simpl. congruence.
Qed.

(** X13. Purchases of different labels do not interfere: each gets the
    answer it would get alone, and the two orders leave the same
    table. *)
Theorem compras_conmutan n1 n2 (t : Tabla) :
  n1 ≠ n2 →
  let c1 := comprar_boleto n1 t in
  let c2 := comprar_boleto n2 t in
  (comprar_boleto n2 c1.2).1 = c2.1 ∧
  (comprar_boleto n1 c2.2).1 = c1.1 ∧
  (comprar_boleto n2 c1.2).2 = (comprar_boleto n1 c2.2).2.
Proof.
  intros Hne c1 c2. subst c1 c2.
  destruct (comprar_boleto_segun_busqueda n2 t (comprar_boleto n1 t).2)
    as [Hr21 Ht21]; [by apply buscar_tras_comprar|].
  destruct (comprar_boleto_segun_busqueda n1 t (comprar_boleto n2 t).2)
    as [Hr12 Ht12]; [by apply buscar_tras_comprar|].
  split_and!; [done..|]. rewrite Ht21, Ht12.
  destruct (comprar_boleto_segun_busqueda n1 t t eq_refl) as [_ ->].
  destruct (comprar_boleto_segun_busqueda n2 t t eq_refl) as [_ ->].
  destruct (buscar n1 t) as [[i1 b1]|] eqn:H1; [|done].
  destruct (buscar n2 t) as [[i2 b2]|] eqn:H2;
    [|by destruct (decide (estado b1 = RESERVADO))].
  destruct (decide (estado b1 = RESERVADO)); [|done].
  destruct (decide (estado b2 = RESERVADO)); [|done].
  destruct (buscar_lookup _ _ _ _ H1) as [Hi1 Hn1].
  destruct (buscar_lookup _ _ _ _ H2) as [Hi2 Hn2].
  apply list_insert_insert_ne. intros ->. congruence.
Qed.

Lemma compras_conmutan_witness :
  let t := [mkBoleto 1 "S1" RESERVADO 30; mkBoleto 2 "S2" RESERVADO 5] in
  (comprar_boleto "S2" (comprar_boleto "S1" t).2).2
  = (comprar_boleto "S1" (comprar_boleto "S2" t).2).2.
Proof.
  intros t.
  apply (proj2 (proj2 (compras_conmutan "S1" "S2" t ltac:(discriminate)))).
Defined.

(** ** 27. A purchase after a listing *)

(** X14. A purchase made on the table a listing at [ahora] has left
    goes through exactly for a live hold: it answers 200 if and only if
    the label designated, before the listing, a row that was RESERVADO
    with a deadline not before [ahora]; a hold whose deadline the listing
    found passed answers 409 with status DISPONIBLE. *)
Theorem comprar_tras_listar (ahora : Z) nombre (t : Tabla) :
  let c := comprar_boleto nombre (get_boletos ahora t).2 in
  (codigo c.1 = 200%Z ↔
     ∃ i b, buscar nombre t = Some (i, b) ∧
            estado b = RESERVADO ∧ (ahora ≤ tiempo_limite b)%Z) ∧
  (∀ i b, buscar nombre t = Some (i, b) →
     estado b = RESERVADO → (tiempo_limite b < ahora)%Z →
     codigo c.1 = 409%Z ∧ estado_json c.1 = Some DISPONIBLE).
Proof.
  intros c. subst c. rewrite get_boletos_eq. cbn [snd].
  destruct (buscar nombre t) as [[i b]|] eqn:Hb.
  - pose proof (buscar_barrer_Some ahora _ _ _ _ Hb) as Hb'.
    destruct (decide (estado b = RESERVADO ∧ (ahora ≤ tiempo_limite b)%Z))
      as [[He Hle]|Hno].
    + destruct (comprar_boleto_exito nombre (barrer ahora <$> t) i
                  (barrer ahora b)) as [m ->];
        [done | by rewrite barrer_vigente |]. cbn [fst codigo].
      split; [split; [intros _; by exists i, b | done]|].
      intros i' b' [= <- <-] _ Hlt. lia.
    + destruct (comprar_boleto_conflicto nombre (barrer ahora <$> t) i
                  (barrer ahora b)) as [m ->]; [done| |].
      * unfold barrer. destruct (expirado ahora b) eqn:Hex; [done|].
        apply not_true_iff_false in Hex. rewrite expirado_true in Hex.
        intros He. apply Hno. split; [done|].
        destruct (decide (ahora ≤ tiempo_limite b)%Z); [done|].
        exfalso. apply Hex. split; [done | lia].
      * cbn [fst codigo estado_json]. split.
        -- split; [done|]. intros (i' & b' & [= <- <-] & ? & ?).
           by destruct Hno.
        -- intros i' b' [= <- <-] He Hlt. by rewrite barrer_expirado.
  - rewrite comprar_boleto_no_encontrado
      by (by rewrite buscar_barrer, Hb).
    cbn [fst codigo]. split; [|done].
    split; [done | by intros (? & ? & ? & _)].
Qed.

Lemma comprar_tras_listar_witness :
  let t := [mkBoleto 1 "S1" RESERVADO 30] in
  codigo (comprar_boleto "S1" (get_boletos 31 t).2).1 = 409%Z.
Proof.
  intros t.
  apply (proj2 (comprar_tras_listar 31 "S1" t) 0
           (mkBoleto 1 "S1" RESERVADO 30) eq_refl eq_refl).
  reflexivity.
Defined.
